(** * RAG hyperparameter evaluation script (api_ai/model_evaluation/ragas_eval.py)

    A shallow embedding of the evaluation script.  The script is an
    orchestration layer over external libraries (LangChain, FAISS, RAGAS,
    pandas); the embedding keeps the script's own control flow and data
    and treats every call into those libraries as an oracle that acts on
    an abstract world, may raise, and is recorded in a trace.

    Conventions.
    - A Python float is idealised as a rational; [NaN] is [None].
    - A Python dict is an association list in insertion order.
    - A pandas DataFrame is stored column by column, columns in order.
    - Every raised exception is an instance of [Exception]; the
      interpreter-level signals that are only [BaseException] are outside
      the model.
    - Dictionaries of scores coming back from RAGAS map metric names to
      floats. *)

From Stdlib Require Import List String ZArith QArith Lia Bool Arith.
Import ListNotations.
Open Scope string_scope.
Open Scope list_scope.

Set Implicit Arguments.

(* ===================================================================== *)
(** ** Python dictionaries (insertion ordered)                            *)
(* ===================================================================== *)

Module Dict.

Definition t (V : Type) := list (string * V).

Definition empty {V} : t V := [].

Fixpoint get {V} (k : string) (d : t V) : option V :=
  match d with
  | [] => None
  | (k', v) :: d' => if String.eqb k k' then Some v else get k d'
  end.

(** [d.get(k, default)] *)
Definition get_default {V} (k : string) (dflt : V) (d : t V) : V :=
  match get k d with Some v => v | None => dflt end.

(** [d[k] = v]: an existing key keeps its position. *)
Fixpoint set {V} (k : string) (v : V) (d : t V) : t V :=
  match d with
  | [] => [(k, v)]
  | (k', v') :: d' =>
      if String.eqb k k' then (k', v) :: d' else (k', v') :: set k v d'
  end.

Definition keys {V} (d : t V) : list string := map fst d.

Definition mem {V} (k : string) (d : t V) : bool :=
  match get k d with Some _ => true | None => false end.

(** [{name: f(name) for name in names}] *)
Definition comprehension {V} (f : string -> V) (names : list string) : t V :=
  fold_left (fun d name => set name (f name) d) names empty.

End Dict.

(** [x in l] on a list of strings. *)
Definition str_in (x : string) (l : list string) : bool :=
  existsb (String.eqb x) l.

(* ===================================================================== *)
(** ** Floats, NaN and pandas containers                                  *)
(* ===================================================================== *)

(** A float score; [None] is [np.nan]. *)
Definition score := option Q.
Definition NaN : score := None.

(** [pd.notna] *)
Definition notna (x : score) : bool :=
  match x with Some _ => true | None => false end.

(** Two scores are the same number (or both missing). *)
Definition score_eq (x y : score) : Prop :=
  match x, y with
  | Some a, Some b => a == b
  | None, None => True
  | _, _ => False
  end.

(** A cell of the results table: a float or a string. *)
Inductive cell :=
| Num (x : score)
| Str (s : string).

Module Pandas.

(** A frame is its columns, in order, each holding one value per row. *)
Record DataFrame (A : Type) := mkDataFrame {
  nrows : nat;
  data : Dict.t (list A)
}.

Definition columns {A} (df : DataFrame A) : list string := Dict.keys (data df).

(** Keys of a list of records in order of first appearance. *)
Definition union_keys {A} (records : list (Dict.t A)) : list string :=
  fold_left
    (fun acc r =>
       fold_left (fun acc' k => if str_in k acc' then acc' else acc' ++ [k])
                 (Dict.keys r) acc)
    records [].

(** [pd.DataFrame(records)] for a list of dicts: one row per record,
    columns are the keys met, a key a record lacks is filled with
    [missing]. *)
Definition from_records {A} (missing : A) (records : list (Dict.t A))
  : DataFrame A :=
  {| nrows := List.length records;
     data := map (fun c => (c, map (Dict.get_default c missing) records))
                 (union_keys records) |}.

(** [nansum]: missing entries count as nothing. *)
Definition nansum (xs : list score) : Q :=
  fold_left (fun acc x => match x with Some q => acc + q | None => acc end)
            xs 0.

Definition count_notna (xs : list score) : nat :=
  List.length (filter notna xs).

(** Mean of one column with [skipna=True] (the default): the sum of the
    present values over their count, [NaN] when nothing is present. *)
Definition nanmean (xs : list score) : score :=
  match count_notna xs with
  | O => NaN
  | S _ as n => Some (nansum xs / inject_Z (Z.of_nat n))
  end.

(** [df.mean().to_dict()]: column name to column mean, in column order. *)
Definition mean_to_dict (df : DataFrame score) : Dict.t score :=
  map (fun '(c, xs) => (c, nanmean xs)) (data df).

(** [df[cols]]: [None] is the [KeyError] of a column the frame lacks. *)
Fixpoint select {A} (cols : list string) (df : DataFrame A)
  : option (Dict.t (list A)) :=
  match cols with
  | [] => Some []
  | c :: cols' =>
      match Dict.get c (data df), select cols' df with
      | Some xs, Some rest => Some ((c, xs) :: rest)
      | _, _ => None
      end
  end.

(** [df.iterrows()] for a frame of two columns read by name. *)
Definition iterrows {A} (dflt : A) (df : DataFrame A)
  : list (nat * Dict.t A) :=
  map (fun i => (i, map (fun '(c, xs) => (c, nth i xs dflt)) (data df)))
      (seq 0 (nrows df)).

End Pandas.
Import Pandas.

(* ===================================================================== *)
(** ** The fixed tables of the script                                     *)
(* ===================================================================== *)

(** One hyperparameter preset (a dict with these four keys in the source). *)
Record config := mkConfig {
  name : string;
  chunk_size : Z;
  top_k : Z;
  temperature : Q
}.

Definition get_manual_hyperparameter_configs : list config :=
  [ mkConfig "Creative & Balanced" 1000 4 (3 # 10);
    mkConfig "Wide Context Sweep" 1200 6 (1 # 10);
    mkConfig "Balanced Natural" 1000 3 (2 # 10);
    mkConfig "Dense Precision" 1800 2 (15 # 100) ].

Definition questions : list string :=
  [ "¿Cuáles son las condiciones que deben darse para que la compañía aseguradora reembolse los gastos médicos?";
    "¿Cuáles son las coberturas que otorga la compañía aseguradora para prestaciones médicas de alto costo?";
    "¿Cuáles son las exclusiones del seguro de COVID-19?";
    "¿Cuándo debe ser denunciado el siniestro de enfermedades graves?" ].

Definition ground_truths : list string :=
  [ "Que haya transcurrido el periodo de carencia, que la póliza esté vigente y que no haya transcurrido el plazo para la cobertura del Evento.";
    "Beneficio de hospitalización (días cama, servicios, honorarios médicos), prótesis, cirugía dental por accidente, servicio de enfermera y ambulancia, y beneficio ambulatorio.";
    "Gastos de hospitalización, rehabilitación o fallecimiento asociados a enfermedades distintas al COVID-19.";
    "El asegurado debe notificar a la compañía tan pronto sea posible una vez tomado conocimiento del diagnóstico de la enfermedad grave cubierta." ].

(** [pd.DataFrame(data)] for the dict of two equally long lists. *)
Definition create_evaluation_dataset : DataFrame string :=
  {| nrows := List.length questions;
     data := [ ("question", questions); ("ground_truth", ground_truths) ] |}.

(** The constants read from the project modules [config_model] and
    [config_vectordb], which the script imports and never changes. *)
Record Settings := mkSettings {
  GEMINI_MODEL : string;
  GEMINI_API_KEY : string;
  MAX_OUT_TOKENS : Z;
  CHUNK_OVERLAP : Z;
  EMBEDDING_MODEL : string
}.

(* ===================================================================== *)
(** ** Objects of the external libraries                                  *)
(* ===================================================================== *)

(** An object is the record of the arguments it was built from; what it
    does when called is an oracle of the environment. *)

Record Document := mkDocument { page_content : string }.

Record ChatGoogleGenerativeAI := mkChat {
  model : string;
  google_api_key : string;
  llm_temperature : Q;
  timeout : option Z;
  max_output_tokens : option Z
}.

Record HuggingFaceEmbeddings := mkEmbeddings {
  model_name : string;
  device : string;
  normalize_embeddings : bool
}.

Record RecursiveCharacterTextSplitter := mkSplitter {
  splitter_chunk_size : Z;
  splitter_chunk_overlap : Z
}.

Record FAISS := mkFAISS {
  indexed : list Document;
  embedding : HuggingFaceEmbeddings
}.

Record Retriever := mkRetriever {
  vectorstore : FAISS;
  search_k : Z
}.

(** [{"context": retriever | join, "question": RunnablePassthrough()}
     | prompt | llm | StrOutputParser()] *)
Record RagChain := mkRagChain {
  chain_retriever : Retriever;
  chain_prompt : string -> string -> string;
  chain_llm : ChatGoogleGenerativeAI
}.

Record LangchainLLMWrapper := mkLLMWrapper { wrapped_llm : ChatGoogleGenerativeAI }.
Record LangchainEmbeddingsWrapper :=
  mkEmbWrapper { wrapped_embeddings : HuggingFaceEmbeddings }.

Record RunConfig := mkRunConfig { max_workers : Z }.

Record Metric := mkMetric {
  metric_name : string;
  metric_llm : option LangchainLLMWrapper;
  metric_embeddings : option LangchainEmbeddingsWrapper
}.

(** [Dataset.from_dict] of four one-element columns. *)
Record Dataset := mkDataset {
  ds_question : list string;
  ds_answer : list string;
  ds_contexts : list (list string);
  ds_ground_truth : list string
}.

(** What [result.scores] can be, as the script tells the cases apart. *)
Inductive ScoresObj :=
| ScoresList (l : list (Dict.t score))
| ScoresWithToDict (type_name : string)
| ScoresDict (d : Dict.t score)
| ScoresOther (type_name : string).

Inductive EvaluationResult :=
| ResultWithScores (s : ScoresObj)
| ResultWithoutScores.

(* ===================================================================== *)
(** ** Effects: world, exceptions and trace                               *)
(* ===================================================================== *)

(** [str(e)] of the exception raised. *)
Definition exn := string.

Inductive result (A : Type) :=
| Ok (a : A)
| Raise (e : exn).
Arguments Ok {A} a.
Arguments Raise {A} e.

(** What the script prints, one constructor per kind of line. *)
Inductive message :=
| MsgConfiguringDeps
| MsgDepsConfigured
| MsgDepsError (e : exn)
| MsgBanner
| MsgEvaluatingConfig (i n : nat) (nm : string)
| MsgHyperparameters (cs k : Z) (temp : Q)
| MsgEvaluatingQuestion (i n : nat)
| MsgSuccessFromList
| MsgSuccessFromObject
| MsgSuccessFromDict
| MsgUnexpectedScores (type_name : string)
| MsgNoScoresAttribute
| MsgFailedByException (e : string)
| MsgPause180
| MsgAverageHeader
| MsgAverage (metric : string) (x : Q)
| MsgAverageFailed (metric : string)
| MsgDashes
| MsgExtraPause300.

(** The actions of a run, in the order they happen: what is printed, the
    calls into the libraries, the records appended to
    [combination_scores], and the pauses. *)
Inductive event :=
| Printed (m : message)
| NewChatModel (m : ChatGoogleGenerativeAI)
| NewLLMWrapper (m : ChatGoogleGenerativeAI)
| NewEmbeddings (e : HuggingFaceEmbeddings)
| NewEmbeddingsWrapper (e : HuggingFaceEmbeddings)
| SplitDocuments (s : RecursiveCharacterTextSplitter) (docs : list Document)
| FaissFromDocuments (splits : list Document) (e : HuggingFaceEmbeddings)
| ChainInvoke (c : RagChain) (q : string)
| RetrieverInvoke (r : Retriever) (q : string)
| LLMInvoke (m : ChatGoogleGenerativeAI) (prompt : string)
| ToDict (type_name : string)
| Evaluate (ds : Dataset) (metrics : list Metric) (raise_exceptions : bool)
           (rc : RunConfig)
| Recorded (final_scores : Dict.t score)
| Sleep (seconds : Z).

Definition trace := list event.

Section Effects.

Variable World : Type.

(** The behaviour of the external libraries. *)
Record Externals := mkExternals {
  chat_model_init : ChatGoogleGenerativeAI -> World -> result unit * World;
  llm_wrapper_init : ChatGoogleGenerativeAI -> World -> result unit * World;
  embeddings_init : HuggingFaceEmbeddings -> World -> result unit * World;
  embeddings_wrapper_init :
    HuggingFaceEmbeddings -> World -> result unit * World;
  split_documents :
    RecursiveCharacterTextSplitter -> list Document -> World ->
    result (list Document) * World;
  faiss_from_documents :
    list Document -> HuggingFaceEmbeddings -> World -> result unit * World;
  retriever_invoke :
    Retriever -> string -> World -> result (list Document) * World;
  llm_invoke :
    ChatGoogleGenerativeAI -> string -> World -> result string * World;
  scores_to_dict : string -> World -> result (Dict.t score) * World;
  ragas_evaluate :
    Dataset -> list Metric -> bool -> RunConfig -> World ->
    result EvaluationResult * World;
  time_sleep : Z -> World -> World;
  (** [hasattr(metric, 'embeddings')] *)
  has_embeddings_attr : string -> bool
}.

(** A computation reads and changes the world, emits a trace and either
    returns or raises. *)
Definition M (A : Type) := World -> result A * trace * World.

Definition ret {A} (a : A) : M A := fun w => (Ok a, [], w).

Definition bind {A B} (m : M A) (f : A -> M B) : M B :=
  fun w =>
    match m w with
    | (Ok a, t1, w1) => let '(r, t2, w2) := f a w1 in (r, t1 ++ t2, w2)
    | (Raise e, t1, w1) => (Raise e, t1, w1)
    end.

Definition raise {A} (e : exn) : M A := fun w => (Raise e, [], w).

Definition print (m : message) : M unit := fun w => (Ok tt, [Printed m], w).

(** A call into a library: recorded, then answered by the oracle. *)
Definition call {A} (ev : event) (oracle : World -> result A * World) : M A :=
  fun w => let '(r, w1) := oracle w in (r, [ev], w1).

(** [try: body / except Exception as e: handler e] *)
Definition try_except {A} (body : M A) (handler : exn -> M A) : M A :=
  fun w =>
    match body w with
    | (Ok a, t1, w1) => (Ok a, t1, w1)
    | (Raise e, t1, w1) =>
        let '(r, t2, w2) := handler e w1 in (r, t1 ++ t2, w2)
    end.

(** [try / except Exception / finally] around a local variable: the
    variable holds [init] on entry, [body] returns its new value, and it
    still holds [init] when [body] raised.  The [finally] block reads the
    variable and runs on every path; an exception escaping the handler
    is raised again after it. *)
Definition try_except_finally {S B}
    (init : S) (body : M S) (handler : exn -> M unit) (fin : S -> M B) : M B :=
  fun w =>
    match body w with
    | (Ok s, t1, w1) =>
        let '(r, t2, w2) := fin s w1 in (r, t1 ++ t2, w2)
    | (Raise e, t1, w1) =>
        match handler e w1 with
        | (Ok _, t2, w2) =>
            let '(r, t3, w3) := fin init w2 in (r, t1 ++ t2 ++ t3, w3)
        | (Raise e', t2, w2) =>
            let '(r, t3, w3) := fin init w2 in
            (match r with Ok _ => Raise e' | Raise e'' => Raise e'' end,
             t1 ++ t2 ++ t3, w3)
        end
    end.

(** A [for] loop that threads the variables it updates. *)
Fixpoint for_each {A S} (body : S -> A -> M S) (xs : list A) (s : S) : M S :=
  match xs with
  | [] => ret s
  | x :: xs' => bind (body s x) (for_each body xs')
  end.

End Effects.

Arguments ret {World A} a.
Arguments raise {World A} e.
Arguments print {World} m.

Declare Scope eff_scope.
Delimit Scope eff_scope with eff.
Notation "x <- c1 ;; c2" := (bind c1 (fun x => c2))
  (at level 61, c1 at next level, right associativity) : eff_scope.
Notation "' pat <- c1 ;; c2" := (bind c1 (fun x => match x with pat => c2 end))
  (at level 61, pat pattern, c1 at next level, right associativity) : eff_scope.
Notation "c1 ;; c2" := (bind c1 (fun _ => c2))
  (at level 61, right associativity) : eff_scope.

(* ===================================================================== *)
(** ** The script                                                         *)
(* ===================================================================== *)

(** The four metric objects imported from [ragas.metrics]; each carries
    its own name and, until the script sets them, no model. *)
Definition faithfulness : Metric := mkMetric "faithfulness" None None.
Definition answer_relevancy : Metric := mkMetric "answer_relevancy" None None.
Definition context_precision : Metric := mkMetric "context_precision" None None.
Definition context_recall : Metric := mkMetric "context_recall" None None.

(** Line 156. *)
Definition metrics : list Metric :=
  [faithfulness; answer_relevancy; context_precision; context_recall].

(** Line 157: [[m.name for m in metrics]]. *)
Definition metric_names : list string := map metric_name metrics.

Definition newline : string := String (Ascii.ascii_of_nat 10) EmptyString.

(** The prompt of the chain, as a function of its two placeholders. *)
Definition prompt_template (context question : string) : string :=
  String.concat EmptyString
    [ "Usa los siguientes fragmentos de contexto para responder la pregunta. Si no sabes la respuesta, simplemente di que no lo sabes. Responde en español.";
      newline; newline; "Contexto: "; context;
      newline; newline; "Pregunta: "; question;
      newline; newline; "Respuesta útil:" ].

(** [lambda docs: "\n\n".join(d.page_content for d in docs)] *)
Definition format_docs (docs : list Document) : string :=
  String.concat (String.append newline newline) (map page_content docs).

(** Line 181: [{name: np.nan for name in metric_names}]. *)
Definition nan_scores : Dict.t score :=
  Dict.comprehension (fun _ => NaN) metric_names.

(** Line 227: [{name: scores_dict.get(name, np.nan) for name in metric_names}]. *)
Definition final_scores_of (scores_dict : Dict.t score) : Dict.t score :=
  Dict.comprehension (fun nm => Dict.get_default nm NaN scores_dict) metric_names.

(** Lines 233-234: [pd.DataFrame(combination_scores).mean().to_dict()],
    then the configuration name under ['combination_name']. *)
Definition average_scores (combination_scores : list (Dict.t score))
    (config_name : string) : Dict.t cell :=
  let avg_scores_df :=
    map (fun '(c, x) => (c, Num x))
        (mean_to_dict (from_records NaN combination_scores)) in
  Dict.set "combination_name" (Str config_name) avg_scores_df.

(** Lines 252-254: the final frame and its column selection. *)
Definition final_results (all_results : list (Dict.t cell))
    : option (DataFrame cell) :=
  let final_results_df := from_records (Num NaN) all_results in
  let final_metric_cols :=
    filter (fun nm => str_in nm (columns final_results_df)) metric_names in
  match select ("combination_name" :: final_metric_cols) final_results_df with
  | Some d => Some (mkDataFrame (nrows final_results_df) d)
  | None => None
  end.

Section Script.

Variable World : Type.
Variable settings : Settings.
Variable ext : Externals World.

Local Open Scope eff_scope.
Local Abbreviation M := (M World).

(** [time.sleep(seconds)] *)
Definition sleep (seconds : Z) : M unit :=
  call (Sleep seconds) (fun w => (Ok tt, time_sleep ext seconds w)).

(** [d[k]], raising [KeyError] on a key the dict lacks. *)
Definition getitem {V} (k : string) (d : Dict.t V) : M V :=
  match Dict.get k d with
  | Some v => ret v
  | None => raise "KeyError"
  end.

(** Lines 43-61: the body of the [try] of [configure_ragas_dependencies]. *)
Definition build_ragas_dependencies
  : M (option LangchainLLMWrapper * option LangchainEmbeddingsWrapper) :=
  let gemini_llm :=
    mkChat (GEMINI_MODEL settings) (GEMINI_API_KEY settings) 0
           (Some 300%Z) None in
  call (NewChatModel gemini_llm) (chat_model_init ext gemini_llm) ;;
  call (NewLLMWrapper gemini_llm) (llm_wrapper_init ext gemini_llm) ;;
  let ragas_llm := mkLLMWrapper gemini_llm in
  let hf_embeddings :=
    mkEmbeddings (EMBEDDING_MODEL settings) "cpu" true in
  call (NewEmbeddings hf_embeddings) (embeddings_init ext hf_embeddings) ;;
  call (NewEmbeddingsWrapper hf_embeddings)
       (embeddings_wrapper_init ext hf_embeddings) ;;
  let ragas_embeddings := mkEmbWrapper hf_embeddings in
  print MsgDepsConfigured ;;
  ret (Some ragas_llm, Some ragas_embeddings).

Definition configure_ragas_dependencies
  : M (option LangchainLLMWrapper * option LangchainEmbeddingsWrapper) :=
  print MsgConfiguringDeps ;;
  try_except
    build_ragas_dependencies
    (fun e => print (MsgDepsError e) ;; ret (None, None)).

Definition create_rag_chain (docs : list Document)
    (temperature : Q) (top_k chunk_size : Z) : M (RagChain * Retriever) :=
  let text_splitter := mkSplitter chunk_size (CHUNK_OVERLAP settings) in
  splits <- call (SplitDocuments text_splitter docs)
                 (split_documents ext text_splitter docs) ;;
  let embeddings := mkEmbeddings (EMBEDDING_MODEL settings) "cpu" true in
  call (NewEmbeddings embeddings) (embeddings_init ext embeddings) ;;
  call (FaissFromDocuments splits embeddings)
       (faiss_from_documents ext splits embeddings) ;;
  let vectorstore := mkFAISS splits embeddings in
  let retriever := mkRetriever vectorstore top_k in
  let llm :=
    mkChat (GEMINI_MODEL settings) (GEMINI_API_KEY settings) temperature
           None (Some (MAX_OUT_TOKENS settings)) in
  call (NewChatModel llm) (chat_model_init ext llm) ;;
  let rag_chain := mkRagChain retriever prompt_template llm in
  ret (rag_chain, retriever).

(** [rag_chain.invoke(question)]: retrieve, fill the prompt, generate,
    keep the text of the answer. *)
Definition rag_chain_invoke (rag_chain : RagChain) (question : string)
  : M string :=
  call (ChainInvoke rag_chain question) (fun w => (Ok tt, w)) ;;
  docs <- call (RetrieverInvoke (chain_retriever rag_chain) question)
               (retriever_invoke ext (chain_retriever rag_chain) question) ;;
  let prompt := chain_prompt rag_chain (format_docs docs) question in
  call (LLMInvoke (chain_llm rag_chain) prompt)
       (llm_invoke ext (chain_llm rag_chain) prompt).

(** Lines 159-162: every metric gets the evaluation model, and the
    embeddings when it has that attribute. *)
Definition configure_metric (ragas_llm : LangchainLLMWrapper)
    (ragas_embeddings : LangchainEmbeddingsWrapper) (m : Metric) : Metric :=
  mkMetric (metric_name m) (Some ragas_llm)
           (if has_embeddings_attr ext (metric_name m)
            then Some ragas_embeddings else metric_embeddings m).

(** Lines 203-220: reading the scores out of the evaluation result.
    Returns the new value of [scores_dict]. *)
Definition read_scores (res : EvaluationResult) (scores_dict : Dict.t score)
  : M (Dict.t score) :=
  match res with
  | ResultWithScores scores_obj =>
      match scores_obj with
      | ScoresList (d :: _) => print MsgSuccessFromList ;; ret d
      | ScoresList [] => print (MsgUnexpectedScores "list") ;; ret scores_dict
      | ScoresWithToDict ty =>
          d <- call (ToDict ty) (scores_to_dict ext ty) ;;
          print MsgSuccessFromObject ;; ret d
      | ScoresDict d => print MsgSuccessFromDict ;; ret d
      | ScoresOther ty => print (MsgUnexpectedScores ty) ;; ret scores_dict
      end
  | ResultWithoutScores => print MsgNoScoresAttribute ;; ret scores_dict
  end.

(** Lines 184-220: the body of the [try] of one question.  Returns the
    new value of [scores_dict]. *)
Definition score_question (mets : list Metric) (ragas_run_config : RunConfig)
    (rag_chain : RagChain) (retriever : Retriever) (row : Dict.t string)
  : M (Dict.t score) :=
  q1 <- getitem "question" row ;;
  response <- rag_chain_invoke rag_chain q1 ;;
  q2 <- getitem "question" row ;;
  retrieved_docs <- call (RetrieverInvoke retriever q2)
                         (retriever_invoke ext retriever q2) ;;
  let contexts := map page_content retrieved_docs in
  q3 <- getitem "question" row ;;
  gt <- getitem "ground_truth" row ;;
  let single_question_dataset :=
    mkDataset [q3] [response] [contexts] [gt] in
  res <- call (Evaluate single_question_dataset mets true ragas_run_config)
              (ragas_evaluate ext single_question_dataset mets true
                              ragas_run_config) ;;
  read_scores res nan_scores.

(** Lines 180-230: the body of the loop over the questions.  Returns
    [combination_scores] after the append. *)
Definition evaluate_question (mets : list Metric) (ragas_run_config : RunConfig)
    (rag_chain : RagChain) (retriever : Retriever) (num_questions : nat)
    (combination_scores : list (Dict.t score))
    (indexed_row : nat * Dict.t string) : M (list (Dict.t score)) :=
  let '(index, row) := indexed_row in
  print (MsgEvaluatingQuestion (index + 1) num_questions) ;;
  try_except_finally nan_scores
    (score_question mets ragas_run_config rag_chain retriever row)
    (fun e => print (MsgFailedByException (String.substring 0 100 e)))
    (fun scores_dict =>
       let final_scores := final_scores_of scores_dict in
       call (Recorded final_scores) (fun w => (Ok tt, w)) ;;
       print MsgPause180 ;;
       sleep 180 ;;
       ret (combination_scores ++ [final_scores])).

(** Lines 238-243: one line per averaged metric. *)
Definition print_average (u : unit) (item : string * cell) : M unit :=
  let '(metric, x) := item in
  if String.eqb metric "combination_name" then ret tt
  else match x with
       | Num (Some v) => print (MsgAverage metric v)
       | Num None => print (MsgAverageFailed metric)
       | Str _ => raise "ValueError"
       end.

(** Lines 166-249: the body of the loop over the presets.  Returns
    [all_results] after the append. *)
Definition evaluate_configuration (original_docs : list Document)
    (mets : list Metric) (ragas_run_config : RunConfig)
    (eval_dataset_pd : DataFrame string) (num_configs : nat)
    (all_results : list (Dict.t cell))
    (indexed_config : nat * config) : M (list (Dict.t cell)) :=
  let '(i, cfg) := indexed_config in
  print MsgBanner ;;
  print (MsgEvaluatingConfig (i + 1) num_configs (name cfg)) ;;
  print (MsgHyperparameters (chunk_size cfg) (top_k cfg) (temperature cfg)) ;;
  print MsgBanner ;;
  '(rag_chain, retriever) <-
    create_rag_chain original_docs (temperature cfg) (top_k cfg)
                     (chunk_size cfg) ;;
  combination_scores <-
    for_each (evaluate_question mets ragas_run_config rag_chain retriever
                                (nrows eval_dataset_pd))
             (iterrows EmptyString eval_dataset_pd) [] ;;
  let avg_scores_df := average_scores combination_scores (name cfg) in
  print MsgAverageHeader ;;
  for_each print_average avg_scores_df tt ;;
  (if (i <? num_configs - 1)%nat
   then print MsgDashes ;; print MsgExtraPause300 ;; print MsgDashes ;;
        sleep 300
   else ret tt) ;;
  ret (all_results ++ [avg_scores_df]).

Definition run_evaluation (original_docs : list Document)
  : M (option (DataFrame cell)) :=
  '(ragas_llm, ragas_embeddings) <- configure_ragas_dependencies ;;
  match ragas_llm, ragas_embeddings with
  | Some llm, Some emb =>
      let ragas_run_config := mkRunConfig 1 in
      let configs := get_manual_hyperparameter_configs in
      let eval_dataset_pd := create_evaluation_dataset in
      let mets := map (configure_metric llm emb) metrics in
      let num_configs := List.length configs in
      all_results <-
        for_each (evaluate_configuration original_docs mets ragas_run_config
                                         eval_dataset_pd num_configs)
                 (combine (seq 0 num_configs) configs) [] ;;
      match final_results all_results with
      | Some df => ret (Some df)
      | None => raise "KeyError"
      end
  | _, _ => ret None
  end.

End Script.

(* ===================================================================== *)
(** ** Concrete environments                                              *)
(* ===================================================================== *)

(** An environment whose world counts the scoring calls made so far, so
    that successive questions meet every shape of answer the script
    distinguishes. *)
Module Demo.

Definition World := nat.

Definition settings : Settings :=
  mkSettings "gemini-model" "key" 512 200 "embedding-model".

Definition docs : list Document :=
  [ mkDocument "poliza de salud"; mkDocument "seguro covid" ].

Definition always {A} (a : A) : World -> result A * World :=
  fun w => (Ok a, w).

Definition full_scores (a b c d : Q) : Dict.t score :=
  [ ("context_recall", Some d); ("faithfulness", Some a);
    ("answer_relevancy", Some b); ("context_precision", Some c) ].

(** Scoring call number [w] answers by one of eight behaviours. *)
Definition evaluate_by_turn (w : World) : result EvaluationResult * World :=
  (match Nat.modulo w 8 with
   | 0%nat => Ok (ResultWithScores (ScoresList [full_scores 1 (1#2) (1#4) (3#4)]))
   | 1%nat => Raise "quota exceeded"
   | 2%nat => Ok (ResultWithScores
                (ScoresDict [("faithfulness", Some (1#2)); ("extra", Some 1);
                             ("context_recall", NaN)]))
   | 3%nat => Ok ResultWithoutScores
   | 4%nat => Ok (ResultWithScores (ScoresWithToDict "Dataset"))
   | 5%nat => Ok (ResultWithScores (ScoresList []))
   | 6%nat => Ok (ResultWithScores (ScoresOther "int"))
   | _ => Ok (ResultWithScores (ScoresList [full_scores (1#3) 0 0 1]))
   end, S w).

(** Every library call but scoring succeeds; retrieval returns the first
    [k] indexed documents and generation answers with a fixed text. *)
Definition ext : Externals World :=
  {| chat_model_init := fun _ => always tt;
     llm_wrapper_init := fun _ => always tt;
     embeddings_init := fun _ => always tt;
     embeddings_wrapper_init := fun _ => always tt;
     split_documents := fun _ ds => always ds;
     faiss_from_documents := fun _ _ => always tt;
     retriever_invoke :=
       fun r _ => always (firstn (Z.to_nat (search_k r)) (indexed (vectorstore r)));
     llm_invoke := fun _ _ => always "respuesta";
     scores_to_dict := fun _ => always (full_scores (1#5) (2#5) (3#5) (4#5));
     ragas_evaluate := fun _ _ _ _ => evaluate_by_turn;
     time_sleep := fun _ w => w;
     has_embeddings_attr := String.eqb "answer_relevancy" |}.


(** The same libraries, but the evaluation model cannot be created. *)
Definition ext_no_llm : Externals World :=
  {| chat_model_init := fun _ w => (Raise "invalid API key", w);
     llm_wrapper_init := fun _ => always tt;
     embeddings_init := fun _ => always tt;
     embeddings_wrapper_init := fun _ => always tt;
     split_documents := split_documents ext;
     faiss_from_documents := faiss_from_documents ext;
     retriever_invoke := retriever_invoke ext;
     llm_invoke := llm_invoke ext;
     scores_to_dict := scores_to_dict ext;
     ragas_evaluate := ragas_evaluate ext;
     time_sleep := time_sleep ext;
     has_embeddings_attr := has_embeddings_attr ext |}.

(** A whole run in the first environment, and the table it returns. *)
Definition run := run_evaluation settings ext docs 0%nat.

Definition table : DataFrame cell :=
  match fst (fst run) with
  | Ok (Some df) => df
  | _ => mkDataFrame 0 []
  end.

End Demo.

(* ===================================================================== *)
(** ** Vocabulary of the specification                                    *)
(* ===================================================================== *)

(** The present values of a column. *)
Fixpoint dropna (xs : list score) : list Q :=
  match xs with
  | [] => []
  | Some q :: xs' => q :: dropna xs'
  | None :: xs' => dropna xs'
  end.

Definition arithmetic_mean (ys : list Q) : Q :=
  fold_right Qplus 0 ys / inject_Z (Z.of_nat (List.length ys)).

(** The mean of the present values, missing when there is none. *)
Definition mean_ignoring_missing (xs : list score) : score :=
  match dropna xs with
  | [] => NaN
  | ys => Some (arithmetic_mean ys)
  end.

(** The record of a question that failed: every metric missing. *)
Definition nan_record : Dict.t score := map (fun m => (m, NaN)) metric_names.

(** A column name occurs as a key of some collected result. *)
Definition appears_in (nm : string) (results : list (Dict.t cell)) : bool :=
  existsb (Dict.mem nm) results.

(** The cell of a frame at a row and a column. *)
Definition cell_at {A} (df : DataFrame A) (i : nat) (column : string) : option A :=
  match Dict.get column (data df) with
  | Some xs => nth_error xs i
  | None => None
  end.

(** [enumerate(configs)] *)
Definition enumerate {A} (xs : list A) : list (nat * A) :=
  combine (seq 0 (List.length xs)) xs.

Definition trace_of {World A} (m : M World A) (w : World) : trace :=
  snd (fst (m w)).

Definition outcome_of {World A} (m : M World A) (w : World) : result A :=
  fst (fst (m w)).

(** The records appended to [combination_scores] during a run. *)
Definition recorded (tr : trace) : list (Dict.t score) :=
  flat_map (fun e => match e with Recorded r => [r] | _ => [] end) tr.


(** *** Pacing: presets started, questions asked, pauses taken *)

Inductive pace :=
| Configuration (nm : string)
| Question (q : string)
| Pause (seconds : Z).

Definition pace_of (e : event) : list pace :=
  match e with
  | Printed (MsgEvaluatingConfig _ _ nm) => [Configuration nm]
  | ChainInvoke _ q => [Question q]
  | Sleep s => [Pause s]
  | _ => []
  end.

Definition pacing (tr : trace) : list pace := flat_map pace_of tr.

(** Every question is asked once and followed by a pause of 180 s. *)
Definition question_pacing : list pace :=
  flat_map (fun q => [Question q; Pause 180]) questions.

(** A preset that ran to its end: its questions, then a pause of 300 s
    unless it is the last one. *)
Definition preset_pacing (num_configs : nat) (ic : nat * config) : list pace :=
  Configuration (name (snd ic))
  :: question_pacing
  ++ (if (fst ic <? num_configs - 1)%nat then [Pause 300] else []).

(** The pacing of a run in which [completed] presets ran to their end and
    the next one, if any, was given up while its chain was built. *)
Definition expected_pacing (completed : nat) : list pace :=
  let presets := enumerate get_manual_hyperparameter_configs in
  flat_map (preset_pacing (List.length presets)) (firstn completed presets)
  ++ match nth_error presets completed with
     | Some (_, cfg) => [Configuration (name cfg)]
     | None => []
     end.




(** *** Stages of the pipeline *)

Inductive stage :=
| SplitStage (chunk_size : Z)
| IndexStage (splits : list Document)
| InvokeStage (top_k : Z) (temperature : Q) (question : string)
| RetrieveStage (top_k : Z) (question : string)
| GenerateStage (temperature : Q)
| ScoreStage (question ground_truth : list string)
| AverageStage.

Definition stage_of (e : event) : list stage :=
  match e with
  | SplitDocuments s _ => [SplitStage (splitter_chunk_size s)]
  | FaissFromDocuments splits _ => [IndexStage splits]
  | ChainInvoke c q =>
      [InvokeStage (search_k (chain_retriever c)) (llm_temperature (chain_llm c)) q]
  | RetrieverInvoke r q => [RetrieveStage (search_k r) q]
  | LLMInvoke m _ => [GenerateStage (llm_temperature m)]
  | Evaluate ds _ _ _ => [ScoreStage (ds_question ds) (ds_ground_truth ds)]
  | Printed MsgAverageHeader => [AverageStage]
  | _ => []
  end.

Definition stages (tr : trace) : list stage := flat_map stage_of tr.

(** The stages of one question: the chain is invoked, which retrieves and
    then generates; the contexts are retrieved once more for the scorer;
    the answer is scored. *)
Definition question_stages (top_k : Z) (temperature : Q) (q gt : string)
  : list stage :=
  [InvokeStage top_k temperature q;
   RetrieveStage top_k q; GenerateStage temperature;
   RetrieveStage top_k q;
   ScoreStage [q] [gt]].

(** The stages of one preset, in the order the specification lists them. *)
Definition preset_stages (splits : list Document) (cfg : config) : list stage :=
  [SplitStage (chunk_size cfg); IndexStage splits]
  ++ flat_map (fun qa : string * string =>
                 question_stages (top_k cfg) (temperature cfg) (fst qa) (snd qa))
              (combine questions ground_truths)
  ++ [AverageStage].

(** *** What the chain of a preset is made of *)

Definition shared_embeddings (settings : Settings) : HuggingFaceEmbeddings :=
  mkEmbeddings (EMBEDDING_MODEL settings) "cpu" true.

Definition preset_chain (settings : Settings) (splits : list Document)
    (top_k : Z) (temperature : Q) : RagChain :=
  mkRagChain
    (mkRetriever (mkFAISS splits (shared_embeddings settings)) top_k)
    prompt_template
    (mkChat (GEMINI_MODEL settings) (GEMINI_API_KEY settings) temperature
            None (Some (MAX_OUT_TOKENS settings))).

(** An event of the run uses the chain of one of the presets, built from
    the shared settings. *)
Definition uses_shared_settings (settings : Settings) (e : event) : Prop :=
  match e with
  | SplitDocuments s _ =>
      splitter_chunk_overlap s = CHUNK_OVERLAP settings /\
      exists cfg, In cfg get_manual_hyperparameter_configs /\
                  splitter_chunk_size s = chunk_size cfg
  | FaissFromDocuments _ emb => emb = shared_embeddings settings
  | ChainInvoke c _ =>
      exists cfg splits,
        In cfg get_manual_hyperparameter_configs /\
        c = preset_chain settings splits (top_k cfg) (temperature cfg)
  | LLMInvoke m _ =>
      exists cfg splits,
        In cfg get_manual_hyperparameter_configs /\
        m = chain_llm (preset_chain settings splits (top_k cfg) (temperature cfg))
  | RetrieverInvoke r _ =>
      exists cfg splits,
        In cfg get_manual_hyperparameter_configs /\
        r = chain_retriever
              (preset_chain settings splits (top_k cfg) (temperature cfg))
  | _ => True
  end.

(** Every scoring call is made with the given run configuration. *)
Definition scored_with (rc : RunConfig) (e : event) : Prop :=
  match e with
  | Evaluate _ _ _ rc' => rc' = rc
  | _ => True
  end.

(** What one question may emit while it is scored. *)
Definition question_event (mets : list Metric) (rc : RunConfig)
    (chain : RagChain) (retr : Retriever) (e : event) : Prop :=
  match e with
  | ChainInvoke c _ => c = chain
  | RetrieverInvoke r _ => r = retr \/ r = chain_retriever chain
  | LLMInvoke m _ => m = chain_llm chain
  | Evaluate _ ms raise_exceptions rc' =>
      ms = mets /\ raise_exceptions = true /\ rc' = rc
  | Printed _ | ToDict _ | Recorded _ => True
  | Sleep s => s = 180%Z
  | _ => False
  end.

Definition count_chain_invocations (tr : trace) : nat :=
  List.length (filter (fun e => match e with ChainInvoke _ _ => true | _ => false end) tr).

Definition count_scoring_calls (tr : trace) : nat :=
  List.length (filter (fun e => match e with Evaluate _ _ _ _ => true | _ => false end) tr).

(** An evaluation result the script does not know how to read. *)
Definition unrecognized (res : EvaluationResult) : Prop :=
  match res with
  | ResultWithoutScores => True
  | ResultWithScores (ScoresList []) => True
  | ResultWithScores (ScoresOther _) => True
  | _ => False
  end.

(** A library call never raises. *)
Definition never_raises {World A} (oracle : World -> result A * World) : Prop :=
  forall w, exists a w', oracle w = (Ok a, w').

(** A loop whose iterations all return: [steps] chains what each
    iteration did to the loop variable and what it emitted. *)
Inductive steps {A S} (step : S -> A -> S -> trace -> Prop)
  : S -> list A -> S -> trace -> Prop :=
| steps_nil s : steps step s [] s []
| steps_cons s x s1 t1 xs s2 t2 :
    step s x s1 t1 -> steps step s1 xs s2 t2 ->
    steps step s (x :: xs) s2 (t1 ++ t2).

Section Failures.

Variable World : Type.
Variable ext : Externals World.

(** The ways a question can fail: the chain, the retrieval of the
    contexts or the scoring raises, or the result is not recognized. *)
Inductive question_fails (mets : list Metric) (rc : RunConfig)
    (chain : RagChain) (retr : Retriever) (q gt : string) (w : World) : Prop :=
| chain_raises e t w1 :
    rag_chain_invoke ext chain q w = (Raise e, t, w1) ->
    question_fails mets rc chain retr q gt w
| retrieval_raises response t w1 e w2 :
    rag_chain_invoke ext chain q w = (Ok response, t, w1) ->
    retriever_invoke ext retr q w1 = (Raise e, w2) ->
    question_fails mets rc chain retr q gt w
| scoring_raises response t w1 docs w2 e w3 :
    rag_chain_invoke ext chain q w = (Ok response, t, w1) ->
    retriever_invoke ext retr q w1 = (Ok docs, w2) ->
    ragas_evaluate ext (mkDataset [q] [response] [map page_content docs] [gt])
                   mets true rc w2 = (Raise e, w3) ->
    question_fails mets rc chain retr q gt w
| result_unrecognized response t w1 docs w2 res w3 :
    rag_chain_invoke ext chain q w = (Ok response, t, w1) ->
    retriever_invoke ext retr q w1 = (Ok docs, w2) ->
    ragas_evaluate ext (mkDataset [q] [response] [map page_content docs] [gt])
                   mets true rc w2 = (Ok res, w3) ->
    unrecognized res ->
    question_fails mets rc chain retr q gt w.

(** Building a chain never raises. *)
Definition chain_construction_succeeds : Prop :=
  (forall s docs, never_raises (split_documents ext s docs)) /\
  (forall e, never_raises (embeddings_init ext e)) /\
  (forall splits e, never_raises (faiss_from_documents ext splits e)) /\
  (forall m, never_raises (chat_model_init ext m)).

(** Retrieval and generation never raise. *)
Definition answering_succeeds : Prop :=
  (forall r q, never_raises (retriever_invoke ext r q)) /\
  (forall m p, never_raises (llm_invoke ext m p)).

End Failures.

(** The graph of a loop body: an iteration that returned, and one that
    raised. *)
Definition returned {World A S} (body : S -> A -> M World S)
  : S -> A -> S -> trace -> Prop :=
  fun s x s' tr => exists w w', body s x w = (Ok s', tr, w').

Definition raised {World A S} (body : S -> A -> M World S)
  : S -> A -> S -> trace -> Prop :=
  fun s x _ tr => exists w e w', body s x w = (Raise e, tr, w').

(** What building the chain of a preset may emit. *)
Definition construction_event (settings : Settings) (docs : list Document)
    (cfg : config) (e : event) : Prop :=
  match e with
  | SplitDocuments s d =>
      s = mkSplitter (chunk_size cfg) (CHUNK_OVERLAP settings) /\ d = docs
  | NewEmbeddings emb => emb = shared_embeddings settings
  | FaissFromDocuments _ emb => emb = shared_embeddings settings
  | NewChatModel m =>
      exists splits,
        m = chain_llm (preset_chain settings splits (top_k cfg) (temperature cfg))
  | _ => False
  end.

(** What configuring the dependencies may emit. *)
Definition dependency_event (e : event) : Prop :=
  match e with
  | Printed MsgConfiguringDeps | Printed MsgDepsConfigured | Printed (MsgDepsError _)
  | NewChatModel _ | NewLLMWrapper _ | NewEmbeddings _
  | NewEmbeddingsWrapper _ => True
  | _ => False
  end.

(** The line printed for one entry of the averaged scores. *)
Definition average_line (item : string * cell) : list event :=
  match item with
  | (m, Num (Some v)) =>
      if String.eqb m "combination_name" then [] else [Printed (MsgAverage m v)]
  | (m, Num None) =>
      if String.eqb m "combination_name" then [] else [Printed (MsgAverageFailed m)]
  | (_, Str _) => []
  end.

(** The question and the expected answer of a row of the benchmark. *)
Definition question_of (x : nat * Dict.t string) : string :=
  Dict.get_default "question" EmptyString (snd x).

Definition ground_truth_of (x : nat * Dict.t string) : string :=
  Dict.get_default "ground_truth" EmptyString (snd x).

Definition has_both_keys (x : nat * Dict.t string) : Prop :=
  Dict.mem "question" (snd x) = true /\ Dict.mem "ground_truth" (snd x) = true.

(** What a preset prints before it builds its chain. *)
Definition preset_header (n i : nat) (cfg : config) : trace :=
  [Printed MsgBanner; Printed (MsgEvaluatingConfig (i + 1) n (name cfg));
   Printed (MsgHyperparameters (chunk_size cfg) (top_k cfg) (temperature cfg));
   Printed MsgBanner].

(** What the script does between two presets. *)
Definition preset_footer (n i : nat) : trace :=
  if (i <? n - 1)%nat
  then [Printed MsgDashes; Printed MsgExtraPause300; Printed MsgDashes; Sleep 300]
  else [].
(** A line of averaged scores. *)
Definition is_average_line (e : event) : Prop :=
  match e with
  | Printed (MsgAverage _ _) | Printed (MsgAverageFailed _) => True
  | _ => False
  end.

(** What the run of one preset leaves behind: its row of averages and its
    trace. *)
Definition preset_run {World} (settings : Settings) (ext : Externals World)
    (rc : RunConfig) (n : nat) (x : nat * config) (avg : Dict.t cell)
    (tr : trace) : Prop :=
  exists raws splits,
    List.length raws = 4%nat /\
    avg = average_scores (map final_scores_of raws) (name (snd x)) /\
    recorded tr = map final_scores_of raws /\
    pacing tr = preset_pacing n x /\
    Forall (fun e => uses_shared_settings settings e /\ scored_with rc e) tr /\
    (answering_succeeds ext -> stages tr = preset_stages splits (snd x)) /\
    In (Printed (MsgEvaluatingConfig (fst x + 1) n (name (snd x)))) tr /\
    incl (flat_map average_line avg) tr.

(** What the run of a preset whose chain could not be built leaves behind. *)
Definition preset_abort {World} (settings : Settings) (ext : Externals World)
    (rc : RunConfig) (x : nat * config) (tr : trace) : Prop :=
  pacing tr = [Configuration (name (snd x))] /\
  recorded tr = [] /\
  Forall (fun e => uses_shared_settings settings e /\ scored_with rc e) tr /\
  ~ chain_construction_succeeds ext.

(** Dependency configuration goes through. *)
Definition dependencies_succeed {World} (settings : Settings)
    (ext : Externals World) (w : World) : Prop :=
  exists llm emb,
    outcome_of (configure_ragas_dependencies settings ext) w
    = Ok (Some llm, Some emb).

(** Dependency configuration raises. *)
Definition dependencies_raise {World} (settings : Settings)
    (ext : Externals World) (w : World) : Prop :=
  exists e, outcome_of (build_ragas_dependencies settings ext) w = Raise e.

(** Preset number [i] of the fixed list. *)
Definition preset (i : nat) : config :=
  nth i get_manual_hyperparameter_configs (mkConfig EmptyString 0 0 0).

(** The table made of the averages of four lists of records. *)
Definition table_of (raws1 raws2 raws3 raws4 : list (Dict.t score))
  : DataFrame cell :=
  {| nrows := 4;
     data :=
       ("combination_name",
        map (fun c => Str (name c)) get_manual_hyperparameter_configs)
       :: map (fun m =>
                 (m, map (fun raws =>
                            Num (nanmean (map (Dict.get_default m NaN)
                                              (map final_scores_of raws))))
                         [raws1; raws2; raws3; raws4]))
              metric_names |}.

(* ===================================================================== *)
(** ** Further vocabulary                                                 *)
(* ===================================================================== *)



Definition total_pause (ps : list pace) : Z :=
  fold_right (fun p acc => match p with Pause s => (s + acc)%Z | _ => acc end)
             0%Z ps.

Definition count_questions (ps : list pace) : nat :=
  List.length (filter (fun p => match p with Question _ => true | _ => false end) ps).

(** The model that scores the answers: line 44. *)
Definition evaluation_llm (settings : Settings) : ChatGoogleGenerativeAI :=
  mkChat (GEMINI_MODEL settings) (GEMINI_API_KEY settings) 0 (Some 300%Z) None.



(** What a preset emits around its chain and its questions. *)
Definition preset_frame_event (e : event) : Prop :=
  match e with
  | Printed MsgBanner | Printed (MsgEvaluatingConfig _ _ _)
  | Printed (MsgHyperparameters _ _ _) | Printed MsgAverageHeader
  | Printed (MsgAverage _ _) | Printed (MsgAverageFailed _)
  | Printed MsgDashes | Printed MsgExtraPause300 => True
  | Sleep s => s = 300%Z
  | _ => False
  end.

Section Origins.

Variable World : Type.
Variable ext : Externals World.


(** A scoring call as the script always makes it: the four configured
    metrics, exceptions raised, and a dataset of one benchmark question
    with its own expected answer, one answer and one list of contexts. *)
Definition scoring_call_well_formed (settings : Settings) (e : event) : Prop :=
  match e with
  | Evaluate ds ms raise_exceptions rc =>
      ms = map (configure_metric ext
                  (mkLLMWrapper (evaluation_llm settings))
                  (mkEmbWrapper (shared_embeddings settings)))
               metrics /\
      raise_exceptions = true /\
      rc = mkRunConfig 1 /\
      (exists i, (i < 4)%nat /\
                 ds_question ds = [nth i questions EmptyString] /\
                 ds_ground_truth ds = [nth i ground_truths EmptyString]) /\
      List.length (ds_answer ds) = 1%nat /\
      List.length (ds_contexts ds) = 1%nat
  | _ => True
  end.

End Origins.

(** One string occurs inside another. *)
Definition contains (s sub : string) : Prop :=
  exists pre post, s = String.append pre (String.append sub post).

(** A scoring library whose every call raises. *)
Definition scoring_always_raises {World} (ext : Externals World) : Prop :=
  forall ds ms raise_exceptions rc w,
    exists e w', ragas_evaluate ext ds ms raise_exceptions rc w = (Raise e, w').

(** A record appended during the run is all missing. *)
Definition record_is_missing (e : event) : Prop :=
  match e with
  | Recorded r => r = nan_record
  | _ => True
  end.

(** A splitting call is made on the given documents. *)
Definition splits_documents (docs : list Document) (e : event) : Prop :=
  match e with
  | SplitDocuments _ d => d = docs
  | _ => True
  end.

(** The first environment, but every scoring call raises. *)
Definition ext_scoring_fails : Externals Demo.World :=
  {| chat_model_init := chat_model_init Demo.ext;
     llm_wrapper_init := llm_wrapper_init Demo.ext;
     embeddings_init := embeddings_init Demo.ext;
     embeddings_wrapper_init := embeddings_wrapper_init Demo.ext;
     split_documents := split_documents Demo.ext;
     faiss_from_documents := faiss_from_documents Demo.ext;
     retriever_invoke := retriever_invoke Demo.ext;
     llm_invoke := llm_invoke Demo.ext;
     scores_to_dict := scores_to_dict Demo.ext;
     ragas_evaluate := fun _ _ _ _ w => (Raise "quota exceeded", S w);
     time_sleep := time_sleep Demo.ext;
     has_embeddings_attr := has_embeddings_attr Demo.ext |}.

(* ===================================================================== *)
(** ** Dictionaries and frames                                            *)
(* ===================================================================== *)

Lemma str_in_In (x : string) (l : list string) : str_in x l = true <-> In x l.
Proof.
  unfold str_in. rewrite existsb_exists. split.
  - intros [y [Hy He]]. apply String.eqb_eq in He. now subst.
  - intros H. exists x. split; [assumption | apply String.eqb_refl].
Qed.

Lemma dict_mem_keys {V} (k : string) (d : Dict.t V) :
  Dict.mem k d = true <-> In k (Dict.keys d).
Proof.
  unfold Dict.mem. induction d as [| [k' v] d IH]; simpl.
  - split; [discriminate | contradiction].
  - destruct (String.eqb k k') eqn:E.
    + apply String.eqb_eq in E. subst. split; auto.
    + apply String.eqb_neq in E. rewrite IH. split; [auto | intros [H | H]; congruence].
Qed.

Lemma final_scores_of_eq (d : Dict.t score) :
  final_scores_of d = map (fun m => (m, Dict.get_default m NaN d)) metric_names.
Proof. reflexivity. Qed.

Lemma final_scores_of_keys (d : Dict.t score) :
  Dict.keys (final_scores_of d) = metric_names.
Proof. reflexivity. Qed.

Lemma nan_scores_record : final_scores_of nan_scores = nan_record.
Proof. reflexivity. Qed.

(** Adding the keys of one record to the columns met so far. *)
Lemma add_keys_In (ks acc : list string) (k : string) :
  In k (fold_left (fun acc' k' => if str_in k' acc' then acc' else acc' ++ [k'])
                  ks acc)
  <-> In k acc \/ In k ks.
Proof.
  revert acc. induction ks as [| k0 ks IH]; intros acc; simpl.
  - tauto.
  - rewrite IH. destruct (str_in k0 acc) eqn:E.
    + apply str_in_In in E. split; [tauto |].
      intros [H | [H | H]]; subst; auto.
    + rewrite in_app_iff. simpl. tauto.
Qed.

Lemma union_keys_acc_In {A} (records : list (Dict.t A)) (acc : list string)
    (k : string) :
  In k (fold_left
          (fun acc r =>
             fold_left (fun acc' k' => if str_in k' acc' then acc' else acc' ++ [k'])
                       (Dict.keys r) acc)
          records acc)
  <-> In k acc \/ exists r, In r records /\ In k (Dict.keys r).
Proof.
  revert acc. induction records as [| r rs IH]; intros acc; simpl.
  - split; [tauto | intros [H | [r [[] _]]]; assumption].
  - rewrite IH, add_keys_In. split.
    + intros [[H | H] | [r' [H1 H2]]]; eauto.
    + intros [H | [r' [[H1 | H1] H2]]]; subst; eauto.
Qed.

Lemma union_keys_In {A} (records : list (Dict.t A)) (k : string) :
  In k (union_keys records) <-> exists r, In r records /\ In k (Dict.keys r).
Proof.
  unfold union_keys. rewrite union_keys_acc_In. simpl. tauto.
Qed.

Lemma from_records_columns {A} (missing : A) (records : list (Dict.t A)) :
  columns (from_records missing records) = union_keys records.
Proof.
  unfold columns, from_records, Dict.keys. simpl.
  rewrite map_map. simpl. apply map_id.
Qed.

Lemma str_in_columns_appears (nm : string) (results : list (Dict.t cell)) :
  str_in nm (columns (from_records (Num NaN) results)) = appears_in nm results.
Proof.
  apply Bool.eq_iff_eq_true.
  rewrite str_in_In, from_records_columns, union_keys_In.
  unfold appears_in. rewrite existsb_exists.
  split; intros [r [H1 H2]]; exists r; split; auto; now apply dict_mem_keys.
Qed.

Lemma select_keys {A} (cols : list string) (df : DataFrame A) (d : Dict.t (list A)) :
  select cols df = Some d -> Dict.keys d = cols.
Proof.
  revert d. induction cols as [| c cols IH]; intros d; simpl.
  - intros H. now inversion H.
  - destruct (Dict.get c (data df)); [| discriminate].
    destruct (select cols df); [| discriminate].
    intros H. inversion H. simpl. f_equal. now apply IH.
Qed.

Lemma final_results_columns (all_results : list (Dict.t cell)) (df : DataFrame cell) :
  final_results all_results = Some df ->
  columns df
  = "combination_name" :: filter (fun nm => appears_in nm all_results) metric_names.
Proof.
  unfold final_results. intros H.
  destruct (select _ _) as [d |] eqn:E; [| discriminate].
  injection H as <-. unfold columns at 1. cbn [data].
  rewrite (select_keys _ _ E). f_equal.
  apply filter_ext. intros nm. apply str_in_columns_appears.
Qed.

(** The columns of a frame built from records that all carry the metric
    names are the metric names. *)
Lemma union_keys_final_scores (raws : list (Dict.t score)) :
  raws <> [] -> union_keys (map final_scores_of raws) = metric_names.
Proof.
  destruct raws as [| d raws]; [congruence | intros _].
  unfold union_keys. simpl map. simpl fold_left at 1.
  change (fold_left _ (Dict.keys (final_scores_of d)) []) with metric_names.
  induction raws as [| d' raws IH]; [reflexivity |].
  simpl map. simpl fold_left at 1.
  change (fold_left _ (Dict.keys (final_scores_of d')) metric_names)
    with metric_names.
  exact IH.
Qed.

Lemma from_records_final_scores (raws : list (Dict.t score)) :
  raws <> [] ->
  from_records NaN (map final_scores_of raws)
  = {| nrows := List.length raws;
       data := map (fun c => (c, map (Dict.get_default c NaN)
                                     (map final_scores_of raws)))
                   metric_names |}.
Proof.
  intros H. unfold from_records.
  rewrite (union_keys_final_scores H), length_map. reflexivity.
Qed.

Lemma average_scores_eq (raws : list (Dict.t score)) (config_name : string) :
  raws <> [] ->
  average_scores (map final_scores_of raws) config_name
  = map (fun m => (m, Num (nanmean (map (Dict.get_default m NaN)
                                        (map final_scores_of raws)))))
        metric_names
    ++ [("combination_name", Str config_name)].
Proof.
  intros H. unfold average_scores.
  rewrite (from_records_final_scores H). reflexivity.
Qed.

(* ===================================================================== *)
(** ** The mean that skips missing values                                 *)
(* ===================================================================== *)

Lemma count_notna_dropna (xs : list score) :
  count_notna xs = List.length (dropna xs).
Proof.
  unfold count_notna. induction xs as [| [q |] xs IH]; simpl; auto.
Qed.

Lemma nansum_acc (xs : list score) (acc : Q) :
  fold_left (fun a x => match x with Some q => a + q | None => a end) xs acc
  == acc + fold_right Qplus 0 (dropna xs).
Proof.
  revert acc. induction xs as [| [q |] xs IH]; intros acc; simpl.
  - now rewrite Qplus_0_r.
  - rewrite IH. now rewrite Qplus_assoc.
  - apply IH.
Qed.

Lemma nansum_dropna (xs : list score) :
  nansum xs == fold_right Qplus 0 (dropna xs).
Proof. unfold nansum. rewrite nansum_acc. apply Qplus_0_l. Qed.

Lemma nanmean_spec (xs : list score) :
  score_eq (nanmean xs) (mean_ignoring_missing xs).
Proof.
  unfold nanmean, mean_ignoring_missing, arithmetic_mean.
  rewrite count_notna_dropna.
  pose proof (nansum_dropna xs) as Hs.
  destruct (dropna xs) as [| y ys]; simpl List.length; cbv iota.
  - exact I.
  - simpl. rewrite Hs. reflexivity.
Qed.

Lemma dropna_all_missing (xs : list score) :
  (forall x, In x xs -> x = NaN) -> dropna xs = [].
Proof.
  induction xs as [| x xs IH]; intros H; [reflexivity |].
  rewrite (H x (or_introl eq_refl)). simpl. apply IH.
  intros y Hy. apply H. now right.
Qed.

Lemma nanmean_all_missing (xs : list score) :
  (forall x, In x xs -> x = NaN) -> nanmean xs = NaN.
Proof.
  intros H. unfold nanmean. rewrite count_notna_dropna.
  now rewrite (dropna_all_missing xs H).
Qed.

Example nanmean_example :
  score_eq (nanmean [Some 1; NaN; Some (1 # 2); NaN]) (Some (3 # 4)).
Proof. reflexivity. Qed.

(* ===================================================================== *)
(** ** Running computations                                               *)
(* ===================================================================== *)

Section Running.

Variable World : Type.

(** What a loop does, from what its body does: it runs the iterations
    in order until one raises. *)
Lemma for_each_outcome {A S} (body : S -> A -> M World S)
    (step abort : S -> A -> S -> trace -> Prop) (xs : list A) :
  (forall s x w, In x xs ->
     match body s x w with
     | (Ok s', tr, _) => step s x s' tr
     | (Raise _, tr, _) => abort s x s tr
     end) ->
  forall s w,
    match for_each body xs s w with
    | (Ok s', tr, _) => steps step s xs s' tr
    | (Raise _, tr, _) =>
        exists pre x post s1 t1 t2,
          xs = pre ++ x :: post /\ steps step s pre s1 t1 /\
          abort s1 x s1 t2 /\ tr = t1 ++ t2
    end.
Proof.
  induction xs as [| x xs IH]; intros Hbody s w; simpl.
  - constructor.
  - unfold bind. pose proof (Hbody s x w (or_introl eq_refl)) as Hx.
    destruct (body s x w) as [[[s1 | e] t1] w1].
    + specialize (IH (fun s0 x0 w0 H => Hbody s0 x0 w0 (or_intror H)) s1 w1).
      destruct (for_each body xs s1 w1) as [[[s2 | e] t2] w2].
      * econstructor; eassumption.
      * destruct IH as (pre & y & post & s3 & t3 & t4 & -> & Hs & Ha & ->).
        exists (x :: pre), y, post, s3, (t1 ++ t3), t4.
        repeat split; auto.
        -- econstructor; eassumption.
        -- now rewrite app_assoc.
    + exists [], x, xs, s, [], t1. repeat split; auto. constructor.
Qed.

End Running.

(* ===================================================================== *)
(** ** One question                                                       *)
(* ===================================================================== *)

Section Question.

Variable World : Type.
Variable ext : Externals World.
Variables (mets : list Metric) (rc : RunConfig).
Variables (chain : RagChain) (retr : Retriever).

(** Case analysis on the answers of the libraries met in the goal. *)
Ltac library_cases :=
  repeat match goal with
    | |- context [retriever_invoke ?e ?r ?q ?w] =>
        destruct (retriever_invoke e r q w) as [[? | ?] ?] eqn:?; cbn
    | |- context [llm_invoke ?e ?m ?p ?w] =>
        destruct (llm_invoke e m p w) as [[? | ?] ?] eqn:?; cbn
    | |- context [ragas_evaluate ?e ?d ?m ?b ?r ?w] =>
        destruct (ragas_evaluate e d m b r w) as [[[[[| ? ?] | ?| ? | ?] | ] | ?] ?] eqn:?;
        cbn
    | |- context [scores_to_dict ?e ?t ?w] =>
        destruct (scores_to_dict e t w) as [[? | ?] ?] eqn:?; cbn
    end.

Ltac run_question row Hq Hgt :=
  unfold score_question, rag_chain_invoke, getitem, read_scores, bind, call,
    ret, raise, print, trace_of, outcome_of;
  rewrite ?Hq, ?Hgt; cbn.

(** One iteration of the question loop, in terms of its [try] body. *)
Lemma evaluate_question_eq n acc idx row w :
  evaluate_question ext mets rc chain retr n acc (idx, row) w
  = let '(r, t, w1) := score_question ext mets rc chain retr row w in
    let raw := match r with Ok d => d | Raise _ => nan_scores end in
    (Ok (acc ++ [final_scores_of raw]),
     Printed (MsgEvaluatingQuestion (idx + 1) n)
     :: t
     ++ match r with
        | Ok _ => []
        | Raise e => [Printed (MsgFailedByException (String.substring 0 100 e))]
        end
     ++ [Recorded (final_scores_of raw); Printed MsgPause180; Sleep 180],
     time_sleep ext 180 w1).
Proof.
  unfold evaluate_question, try_except_finally, sleep, bind, call, ret, print.
  destruct (score_question ext mets rc chain retr row w) as [[[d | e] t] w1];
    cbn; rewrite <- ?app_assoc; reflexivity.
Qed.

Variables (row : Dict.t string) (q gt : string).
Hypothesis Hq : Dict.get "question" row = Some q.
Hypothesis Hgt : Dict.get "ground_truth" row = Some gt.

Lemma score_question_pacing w :
  pacing (trace_of (score_question ext mets rc chain retr row) w) = [Question q].
Proof. run_question row Hq Hgt. library_cases; reflexivity. Qed.

Lemma score_question_recorded w :
  recorded (trace_of (score_question ext mets rc chain retr row) w) = [].
Proof. run_question row Hq Hgt. library_cases; reflexivity. Qed.

Lemma score_question_events w :
  Forall (question_event mets rc chain retr)
         (trace_of (score_question ext mets rc chain retr row) w).
Proof.
  run_question row Hq Hgt.
  library_cases;
    repeat first [apply Forall_nil | apply Forall_cons; [cbn; auto |]].
Qed.

Lemma score_question_counts w :
  let tr := trace_of (score_question ext mets rc chain retr row) w in
  count_chain_invocations tr = 1%nat /\ (count_scoring_calls tr <= 1)%nat.
Proof.
  run_question row Hq Hgt.
  library_cases; split; cbn; auto.
Qed.

(** A failed question leaves [scores_dict] as it was initialised. *)
Lemma score_question_fails w :
  question_fails ext mets rc chain retr q gt w ->
  match outcome_of (score_question ext mets rc chain retr row) w with
  | Ok d => d = nan_scores
  | Raise _ => True
  end.
Proof.
  intros Hf. unfold outcome_of, score_question, getitem.
  rewrite Hq, Hgt. unfold bind at 1. cbn [ret].
  unfold bind at 1.
  destruct Hf as [e t w1 H1 | resp t w1 e w2 H1 H2 | resp t w1 docs w2 e w3 H1 H2 H3
                 | resp t w1 docs w2 res w3 H1 H2 H3 Hu];
    rewrite H1; cbn; trivial;
    unfold bind, call, ret; cbn; rewrite H2; cbn; trivial;
    rewrite H3; cbn; trivial.
  destruct res as [[[| ? ?] | ? | ? | ?] |]; cbn in *; try contradiction;
    reflexivity.
Qed.

Lemma score_question_stages w :
  answering_succeeds ext ->
  retr = chain_retriever chain ->
  stages (trace_of (score_question ext mets rc chain retr row) w)
  = question_stages (search_k (chain_retriever chain))
                    (llm_temperature (chain_llm chain)) q gt.
Proof.
  intros [Hr Hl] Hsame. run_question row Hq Hgt.
  repeat match goal with
    | |- context [retriever_invoke ?e ?r ?q ?w] =>
        destruct (Hr r q w) as (? & ? & ->); cbn
    | |- context [llm_invoke ?e ?m ?p ?w] =>
        destruct (Hl m p w) as (? & ? & ->); cbn
    end.
  library_cases; rewrite Hsame; reflexivity.
Qed.

End Question.

(* ===================================================================== *)
(** ** Loops                                                              *)
(* ===================================================================== *)

Section Loops.

Variable World : Type.

Lemma for_each_graph {A S} (body : S -> A -> M World S) (xs : list A) s w :
  match for_each body xs s w with
  | (Ok s', tr, _) => steps (returned body) s xs s' tr
  | (Raise _, tr, _) =>
      exists pre x post s1 t1 t2,
        xs = pre ++ x :: post /\ steps (returned body) s pre s1 t1 /\
        raised body s1 x s1 t2 /\ tr = t1 ++ t2
  end.
Proof.
  apply for_each_outcome. intros s0 x0 w0 _.
  destruct (body s0 x0 w0) as [[[s' | e] tr] w'] eqn:E.
  - now exists w0, w'.
  - now exists w0, e, w'.
Qed.

(** A loop that appends one item per iteration. *)
Lemma steps_appended {A R} (step : list R -> A -> list R -> trace -> Prop)
    (item : A -> R -> trace -> Prop) s xs s' tr :
  (forall s0 x s1 t, In x xs -> step s0 x s1 t ->
     exists r, s1 = s0 ++ [r] /\ item x r t) ->
  steps step s xs s' tr ->
  exists rts : list (R * trace),
    s' = s ++ map fst rts /\ tr = List.concat (map snd rts) /\
    Forall2 (fun x rt => item x (fst rt) (snd rt)) xs rts.
Proof.
  intros H Hs. induction Hs as [| s x s1 t1 xs s2 t2 Hx Hxs IH].
  - exists []. cbn. rewrite app_nil_r. repeat split; constructor.
  - destruct (H s x s1 t1 (or_introl eq_refl) Hx) as (r & -> & Hr).
    destruct IH as (rts & -> & -> & HF).
    { intros s0 x0 s3 t Hin Hst. exact (H _ _ _ _ (or_intror Hin) Hst). }
    exists ((r, t1) :: rts). rewrite <- app_assoc. cbn.
    repeat split; auto.
Qed.

Lemma runs_flat_map {A R X} (item : A -> R -> trace -> Prop)
    (p : event -> list X) (g : A -> list X) xs (rts : list (R * trace)) :
  (forall x r t, item x r t -> flat_map p t = g x) ->
  Forall2 (fun x rt => item x (fst rt) (snd rt)) xs rts ->
  flat_map p (List.concat (map snd rts)) = flat_map g xs.
Proof.
  intros H HF. induction HF as [| x [r t] xs rts Hx _ IH]; [reflexivity |].
  cbn. rewrite flat_map_app, IH. f_equal. exact (H _ _ _ Hx).
Qed.

Lemma runs_Forall {A R} (item : A -> R -> trace -> Prop)
    (P : event -> Prop) xs (rts : list (R * trace)) :
  (forall x r t, item x r t -> Forall P t) ->
  Forall2 (fun x rt => item x (fst rt) (snd rt)) xs rts ->
  Forall P (List.concat (map snd rts)).
Proof.
  intros H HF. induction HF as [| x [r t] xs rts Hx _ IH]; [constructor |].
  cbn. apply Forall_app. split; [exact (H _ _ _ Hx) | exact IH].
Qed.

Lemma flat_map_silent {X} (p : event -> list X) (P : event -> Prop) tr :
  (forall e, P e -> p e = []) -> Forall P tr -> flat_map p tr = [].
Proof.
  intros H HF. induction HF as [| e tr He _ IH]; [reflexivity |].
  simpl. now rewrite (H e He), IH.
Qed.

Lemma Forall2_four {A B} (P : A -> B -> Prop) a b c d (l : list B) :
  Forall2 P [a; b; c; d] l ->
  exists ra rb rc rd,
    l = [ra; rb; rc; rd] /\ P a ra /\ P b rb /\ P c rc /\ P d rd.
Proof.
  intros H.
  inversion H as [| ? ra ? l1 Ha H1]; subst.
  inversion H1 as [| ? rb ? l2 Hb H2]; subst.
  inversion H2 as [| ? rc ? l3 Hc H3]; subst.
  inversion H3 as [| ? rd ? l4 Hd H4]; subst.
  inversion H4; subst. now exists ra, rb, rc, rd.
Qed.

End Loops.

(* ===================================================================== *)
(** ** One preset                                                         *)
(* ===================================================================== *)

Section Preset.

Variable World : Type.
Variable settings : Settings.
Variable ext : Externals World.
Variables (mets : list Metric) (rc : RunConfig).

Lemma has_both_keys_get (x : nat * Dict.t string) :
  has_both_keys x ->
  Dict.get "question" (snd x) = Some (question_of x) /\
  Dict.get "ground_truth" (snd x) = Some (ground_truth_of x).
Proof.
  unfold has_both_keys, question_of, ground_truth_of, Dict.mem, Dict.get_default.
  destruct (Dict.get "question" (snd x)), (Dict.get "ground_truth" (snd x));
    intros [H1 H2]; try discriminate; auto.
Qed.

Lemma question_returned chain retr n acc x acc' tr :
  has_both_keys x ->
  returned (evaluate_question ext mets rc chain retr n) acc x acc' tr ->
  exists raw,
    acc' = acc ++ [final_scores_of raw] /\
    recorded tr = [final_scores_of raw] /\
    pacing tr = [Question (question_of x); Pause 180] /\
    Forall (question_event mets rc chain retr) tr /\
    (answering_succeeds ext -> retr = chain_retriever chain ->
     stages tr = question_stages (search_k (chain_retriever chain))
                                 (llm_temperature (chain_llm chain))
                                 (question_of x) (ground_truth_of x)).
Proof.
  intros Hk (w & w' & E). destruct (has_both_keys_get Hk) as [Hq Hgt].
  destruct x as [idx row]. cbn [snd] in Hq, Hgt.
  rewrite evaluate_question_eq in E.
  pose proof (score_question_pacing ext mets rc chain retr row Hq Hgt w) as Hp.
  pose proof (score_question_recorded ext mets rc chain retr row Hq Hgt w) as Hr.
  pose proof (score_question_events ext mets rc chain retr row Hq Hgt w) as He.
  pose proof (fun H H' => @score_question_stages _ ext mets rc chain retr row _ _ Hq Hgt w H H')
    as Hs.
  unfold trace_of in *.
  destruct (score_question ext mets rc chain retr row w) as [[r t] w1].
  cbn [fst snd] in *. injection E as <- <- _.
  exists (match r with Ok d => d | Raise _ => nan_scores end).
  split; [reflexivity |].
  unfold recorded, pacing, stages in *.
  cbn [flat_map]. rewrite !flat_map_app, ?Hp, ?Hr.
  repeat split.
  - destruct r; reflexivity.
  - destruct r; reflexivity.
  - constructor; [exact I |]. apply Forall_app. split; [assumption |].
    destruct r; repeat constructor.
  - intros Ha Hsame. rewrite (Hs Ha Hsame). destruct r; reflexivity.
Qed.

Lemma question_never_raised chain retr n acc x s tr :
  raised (evaluate_question ext mets rc chain retr n) acc x s tr -> False.
Proof.
  intros (w & e & w' & E). destruct x as [idx row].
  rewrite evaluate_question_eq in E.
  destruct (score_question ext mets rc chain retr row w) as [[r t] w1].
  discriminate.
Qed.

Lemma question_steps chain retr n rows acc acc' tr :
  Forall has_both_keys rows ->
  steps (returned (evaluate_question ext mets rc chain retr n)) acc rows acc' tr ->
  exists raws,
    acc' = acc ++ map final_scores_of raws /\
    List.length raws = List.length rows /\
    recorded tr = map final_scores_of raws /\
    pacing tr = flat_map (fun x => [Question (question_of x); Pause 180]) rows /\
    Forall (question_event mets rc chain retr) tr /\
    (answering_succeeds ext -> retr = chain_retriever chain ->
     stages tr
     = flat_map (fun x =>
                   question_stages (search_k (chain_retriever chain))
                                   (llm_temperature (chain_llm chain))
                                   (question_of x) (ground_truth_of x)) rows).
Proof.
  intros Hrows Hs.
  induction Hs as [| s x s1 t1 xs s2 t2 Hx Hxs IH].
  - exists []. rewrite app_nil_r. repeat split; constructor.
  - inversion Hrows as [| ? ? Hk Hrest]; subst.
    destruct (question_returned Hk Hx) as (raw & -> & Hr & Hp & He & Hst).
    destruct (IH Hrest) as (raws & -> & Hl & Hr' & Hp' & He' & Hst').
    exists (raw :: raws). unfold recorded, pacing, stages in *.
    rewrite !flat_map_app, <- app_assoc, Hr, Hp, Hr', Hp'. cbn.
    repeat split; auto.
    + now apply Forall_app.
    + intros Ha Hsame. now rewrite (Hst Ha Hsame), (Hst' Ha Hsame).
Qed.

(** The loop over the questions always returns. *)
Lemma question_loop chain retr n rows w :
  Forall has_both_keys rows ->
  exists raws tr w',
    for_each (evaluate_question ext mets rc chain retr n) rows [] w
    = (Ok (map final_scores_of raws), tr, w') /\
    List.length raws = List.length rows /\
    recorded tr = map final_scores_of raws /\
    pacing tr = flat_map (fun x => [Question (question_of x); Pause 180]) rows /\
    Forall (question_event mets rc chain retr) tr /\
    (answering_succeeds ext -> retr = chain_retriever chain ->
     stages tr
     = flat_map (fun x =>
                   question_stages (search_k (chain_retriever chain))
                                   (llm_temperature (chain_llm chain))
                                   (question_of x) (ground_truth_of x)) rows).
Proof.
  intros Hrows.
  pose proof (for_each_graph (evaluate_question ext mets rc chain retr n)
                             rows [] w) as H.
  destruct (for_each _ rows [] w) as [[[s' | e] tr] w'].
  - destruct (question_steps Hrows H) as (raws & -> & Hrest).
    now exists raws, tr, w'.
  - destruct H as (? & ? & ? & ? & ? & ? & _ & _ & Hr & _).
    destruct (question_never_raised Hr).
Qed.

Lemma benchmark_rows_have_keys :
  Forall has_both_keys (iterrows EmptyString create_evaluation_dataset).
Proof. repeat constructor. Qed.

(** Building the chain of a preset. *)
Lemma create_rag_chain_inv docs cfg w :
  match create_rag_chain settings ext docs (temperature cfg) (top_k cfg)
                         (chunk_size cfg) w with
  | (Ok (chain, retr), tc, _) =>
      exists splits,
        chain = preset_chain settings splits (top_k cfg) (temperature cfg) /\
        retr = chain_retriever chain /\
        stages tc = [SplitStage (chunk_size cfg); IndexStage splits] /\
        Forall (construction_event settings docs cfg) tc
  | (Raise _, tc, _) =>
      Forall (construction_event settings docs cfg) tc /\
      ~ chain_construction_succeeds ext
  end.
Proof.
  unfold create_rag_chain, bind, call, ret.
  set (sp := mkSplitter (chunk_size cfg) (CHUNK_OVERLAP settings)).
  destruct (split_documents ext sp docs w) as [[splits | e] w1] eqn:E1.
  2:{ split; [repeat constructor |].
      intros (H & _). destruct (H sp docs w) as (? & ? & E). congruence. }
  set (emb := mkEmbeddings (EMBEDDING_MODEL settings) "cpu" true).
  destruct (embeddings_init ext emb w1) as [[[] | e] w2] eqn:E2.
  2:{ split; [repeat constructor |].
      intros (_ & H & _). destruct (H emb w1) as (? & ? & E). congruence. }
  destruct (faiss_from_documents ext splits emb w2) as [[[] | e] w3] eqn:E3.
  2:{ split; [repeat constructor |].
      intros (_ & _ & H & _). destruct (H splits emb w2) as (? & ? & E).
      congruence. }
  set (llm := mkChat _ _ _ _ _).
  destruct (chat_model_init ext llm w3) as [[[] | e] w4] eqn:E4.
  2:{ split; [repeat constructor; now exists splits |].
      intros (_ & _ & _ & H). destruct (H llm w3) as (? & ? & E). congruence. }
  exists splits. repeat split; repeat constructor. now exists splits.
Qed.

Lemma print_averages raws nm (w : World) :
  raws <> [] ->
  for_each (@print_average World) (average_scores (map final_scores_of raws) nm)
           tt w
  = (Ok tt, flat_map average_line (average_scores (map final_scores_of raws) nm),
     w).
Proof.
  intros H. rewrite (average_scores_eq nm H).
  unfold metric_names, metrics. cbn [map app metric_name faithfulness
    answer_relevancy context_precision context_recall].
  repeat match goal with
    | |- context [nanmean ?l] => generalize (nanmean l); intros [? |]
    end; reflexivity.
Qed.

(** One iteration of the loop over the presets, in terms of its parts. *)
Lemma evaluate_configuration_eq docs n acc i cfg w :
  evaluate_configuration settings ext docs mets rc create_evaluation_dataset n
                         acc (i, cfg) w
  = match create_rag_chain settings ext docs (temperature cfg) (top_k cfg)
                           (chunk_size cfg) w with
    | (Raise e, tc, w1) => (Raise e, preset_header n i cfg ++ tc, w1)
    | (Ok (chain, retr), tc, w1) =>
        match for_each (evaluate_question ext mets rc chain retr 4)
                       (iterrows EmptyString create_evaluation_dataset) [] w1 with
        | (Raise e, tq, w2) => (Raise e, preset_header n i cfg ++ tc ++ tq, w2)
        | (Ok scores, tq, w2) =>
            let avg := average_scores scores (name cfg) in
            match for_each (@print_average World) avg tt w2 with
            | (Raise e, tp, w3) =>
                (Raise e,
                 preset_header n i cfg ++ tc ++ tq ++ Printed MsgAverageHeader :: tp,
                 w3)
            | (Ok _, tp, w3) =>
                (Ok (acc ++ [avg]),
                 preset_header n i cfg ++ tc ++ tq ++ Printed MsgAverageHeader :: tp
                 ++ preset_footer n i,
                 if (i <? n - 1)%nat then time_sleep ext 300 w3 else w3)
            end
        end
    end.
Proof.
  unfold evaluate_configuration, preset_header, preset_footer.
  unfold bind at 1 2 3 4. unfold print at 1 2 3 4. cbn [app].
  unfold bind at 1.
  destruct (create_rag_chain _ _ _ _ _ _ w) as [[[[chain retr] | e] tc] w1];
    [| reflexivity].
  unfold bind at 1. change (nrows create_evaluation_dataset) with 4%nat.
  destruct (for_each _ (iterrows EmptyString create_evaluation_dataset) [] w1)
    as [[[scores | e] tq] w2]; [| cbn; rewrite <- ?app_assoc; reflexivity].
  unfold bind at 1. unfold print at 1. unfold bind at 1.
  destruct (for_each _ (average_scores scores (name cfg)) tt w2)
    as [[[[] | e] tp] w3]; [| cbn; rewrite <- ?app_assoc; reflexivity].
  unfold bind, sleep, call, print, ret.
  destruct (i <? n - 1)%nat; cbn; rewrite <- ?app_assoc, ?app_nil_r; cbn;
    rewrite <- ?app_assoc; reflexivity.
Qed.

Lemma average_lines (avg : Dict.t cell) :
  Forall is_average_line (flat_map average_line avg).
Proof.
  induction avg as [| [m [[v |] | s]] avg IH]; cbn [flat_map];
    [constructor | | |];
    (apply Forall_app; split; [| exact IH]); cbn;
    try destruct (String.eqb m "combination_name"); repeat constructor.
Qed.

Lemma construction_event_shared docs cfg e :
  In cfg get_manual_hyperparameter_configs ->
  construction_event settings docs cfg e ->
  uses_shared_settings settings e /\ scored_with rc e.
Proof.
  intros Hin. destruct e; cbn; try contradiction; try tauto.
  intros [-> ->]. cbn. split; [split |]; auto. now exists cfg.
Qed.

Lemma question_event_shared cfg splits e :
  In cfg get_manual_hyperparameter_configs ->
  question_event mets rc
    (preset_chain settings splits (top_k cfg) (temperature cfg))
    (chain_retriever (preset_chain settings splits (top_k cfg) (temperature cfg)))
    e ->
  uses_shared_settings settings e /\ scored_with rc e.
Proof.
  intros Hin. destruct e; cbn; try contradiction; try tauto.
  - intros ->. split; [now exists cfg, splits | exact I].
  - intros [-> | ->]; (split; [now exists cfg, splits | exact I]).
  - intros ->. split; [now exists cfg, splits | exact I].
Qed.

Lemma configuration_returned docs n acc i cfg acc' tr :
  In cfg get_manual_hyperparameter_configs ->
  returned (evaluate_configuration settings ext docs mets rc
                                   create_evaluation_dataset n)
           acc (i, cfg) acc' tr ->
  exists raws splits,
    List.length raws = 4%nat /\
    acc' = acc ++ [average_scores (map final_scores_of raws) (name cfg)] /\
    recorded tr = map final_scores_of raws /\
    pacing tr = preset_pacing n (i, cfg) /\
    Forall (fun e => uses_shared_settings settings e /\ scored_with rc e) tr /\
    (answering_succeeds ext -> stages tr = preset_stages splits cfg) /\
    In (Printed (MsgEvaluatingConfig (i + 1) n (name cfg))) tr /\
    incl (flat_map average_line
                   (average_scores (map final_scores_of raws) (name cfg))) tr.
Proof.
  intros Hin (w & w' & E). rewrite evaluate_configuration_eq in E.
  pose proof (create_rag_chain_inv docs cfg w) as Hc.
  destruct (create_rag_chain _ _ _ _ _ _ w) as [[[[chain retr] | e] tc] w1];
    [| discriminate].
  destruct Hc as (splits & -> & -> & Hst & Hce).
  destruct (question_loop
              (preset_chain settings splits (top_k cfg) (temperature cfg))
              (chain_retriever
                 (preset_chain settings splits (top_k cfg) (temperature cfg)))
              4 w1 benchmark_rows_have_keys)
    as (raws & tq & w2 & Eq & Hl & Hr & Hp & He & Hs).
  rewrite Eq in E. cbv zeta in E.
  assert (Hne : raws <> []) by (destruct raws; [discriminate | congruence]).
  rewrite (print_averages (name cfg) w2 Hne) in E.
  injection E as <- <- _.
  set (avg := average_scores (map final_scores_of raws) (name cfg)).
  assert (Hsil : forall X (p : event -> list X),
             (forall e, is_average_line e -> p e = []) ->
             flat_map p (flat_map average_line avg) = []).
  { intros X p Hp'. exact (flat_map_silent p Hp' (average_lines avg)). }
  exists raws, splits. split; [exact Hl |]. split; [reflexivity |].
  unfold recorded, pacing, stages in *.
  repeat (cbn [flat_map]; rewrite ?flat_map_app).
  repeat split.
  - rewrite Hr.
    rewrite (flat_map_silent _ (P := construction_event settings docs cfg)) by
      (try assumption; intros []; cbn; try contradiction; reflexivity).
    rewrite Hsil by (intros [[] | | | | | | | | | | | | | ]; cbn;
                     try contradiction; reflexivity).
    unfold preset_footer. destruct (i <? n - 1)%nat; cbn;
      now rewrite app_nil_r.
  - rewrite Hp.
    rewrite (flat_map_silent _ (P := construction_event settings docs cfg)) by
      (try assumption; intros []; cbn; try contradiction; reflexivity).
    rewrite Hsil by (intros [[] | | | | | | | | | | | | | ]; cbn;
                     try contradiction; reflexivity).
    unfold preset_footer, preset_pacing. cbn [fst snd].
    destruct (i <? n - 1)%nat; reflexivity.
  - repeat (apply Forall_cons; [split; exact I |]).
    apply Forall_app. split.
    { eapply Forall_impl; [| exact Hce].
      intros e. now apply construction_event_shared. }
    apply Forall_app. split.
    { eapply Forall_impl; [| exact He].
      intros e. now apply question_event_shared. }
    constructor; [now split |]. apply Forall_app. split.
    { eapply Forall_impl; [| exact (average_lines avg)].
      intros [[] | | | | | | | | | | | | | ]; cbn; tauto. }
    unfold preset_footer. destruct (i <? n - 1)%nat; repeat constructor.
  - intros Ha. rewrite (Hs Ha eq_refl), Hst.
    rewrite Hsil by (intros [[] | | | | | | | | | | | | | ]; cbn;
                     try contradiction; reflexivity).
    unfold preset_footer. destruct (i <? n - 1)%nat; reflexivity.
  - right. now left.
  - intros e He'. do 4 right. apply in_or_app. right. apply in_or_app. right.
    right. apply in_or_app. now left.
Qed.

Lemma configuration_raised docs n acc i cfg s tr :
  In cfg get_manual_hyperparameter_configs ->
  raised (evaluate_configuration settings ext docs mets rc
                                 create_evaluation_dataset n)
         acc (i, cfg) s tr ->
  pacing tr = [Configuration (name cfg)] /\
  recorded tr = [] /\
  Forall (fun e => uses_shared_settings settings e /\ scored_with rc e) tr /\
  ~ chain_construction_succeeds ext.
Proof.
  intros Hin (w & e & w' & E). rewrite evaluate_configuration_eq in E.
  pose proof (create_rag_chain_inv docs cfg w) as Hc.
  destruct (create_rag_chain _ _ _ _ _ _ w) as [[[[chain retr] | e0] tc] w1].
  - exfalso.
    destruct (question_loop chain retr 4 w1 benchmark_rows_have_keys)
      as (raws & tq & w2 & Eq & Hl & _).
    rewrite Eq in E. cbv zeta in E.
    assert (Hne : raws <> []) by (destruct raws; [discriminate | congruence]).
    rewrite (print_averages (name cfg) w2 Hne) in E. discriminate.
  - destruct Hc as [Hce Hno]. injection E as _ <- _.
    unfold recorded, pacing. cbn [flat_map preset_header app].
    rewrite !(flat_map_silent _ (P := construction_event settings docs cfg)) by
      (try assumption; intros []; cbn; try contradiction; reflexivity).
    repeat split; auto.
    repeat (apply Forall_cons; [split; exact I |]).
    eapply Forall_impl; [| exact Hce].
    intros e'. now apply construction_event_shared.
Qed.

End Preset.

(* ===================================================================== *)
(** ** The whole run                                                      *)
(* ===================================================================== *)

Section Run.

Variable World : Type.
Variable settings : Settings.
Variable ext : Externals World.

Lemma configure_inv w :
  match configure_ragas_dependencies settings ext w with
  | (Ok (Some _, Some _), td, _) =>
      Forall dependency_event td /\ ~ dependencies_raise settings ext w
  | (Ok (None, None), td, _) =>
      Forall dependency_event td /\ dependencies_raise settings ext w
  | _ => False
  end.
Proof.
  unfold dependencies_raise, outcome_of, configure_ragas_dependencies,
    build_ragas_dependencies, try_except, bind, call, print, ret.
  repeat match goal with
    | |- context [match ?f ext ?a w with _ => _ end] =>
        destruct (f ext a w) as [[[] | ?] ?]; cbn
    | |- context [match ?f ext ?a ?w' with _ => _ end] =>
        destruct (f ext a w') as [[[] | ?] ?]; cbn
    end;
    (split; [repeat constructor | ]); try (intros [? ?]; discriminate); eauto.
Qed.

Lemma run_evaluation_eq docs w :
  run_evaluation settings ext docs w
  = match configure_ragas_dependencies settings ext w with
    | (Ok (Some llm, Some emb), td, w1) =>
        match for_each
                (evaluate_configuration settings ext docs
                   (map (configure_metric ext llm emb) metrics) (mkRunConfig 1)
                   create_evaluation_dataset 4)
                (enumerate get_manual_hyperparameter_configs) [] w1 with
        | (Ok all_results, tl, w2) =>
            match final_results all_results with
            | Some df => (Ok (Some df), td ++ tl, w2)
            | None => (Raise "KeyError", td ++ tl, w2)
            end
        | (Raise e, tl, w2) => (Raise e, td ++ tl, w2)
        end
    | (Ok _, td, w1) => (Ok None, td, w1)
    | (Raise e, td, w1) => (Raise e, td, w1)
    end.
Proof.
  unfold run_evaluation. unfold bind at 1.
  destruct (configure_ragas_dependencies settings ext w)
    as [[[[[llm |] [emb |]] | e] td] w1]; try reflexivity;
    try (unfold ret; now rewrite app_nil_r).
  unfold bind. change (List.length get_manual_hyperparameter_configs) with 4%nat.
  change (combine (seq 0 4) get_manual_hyperparameter_configs)
    with (enumerate get_manual_hyperparameter_configs).
  destruct (for_each _ (enumerate get_manual_hyperparameter_configs) [] w1)
    as [[[all_results | e] tl] w2]; [| reflexivity].
  destruct (final_results all_results); unfold ret, raise;
    now rewrite app_nil_r.
Qed.

Lemma enumerate_presets x :
  In x (enumerate get_manual_hyperparameter_configs) ->
  In (snd x) get_manual_hyperparameter_configs.
Proof.
  cbn. intros H.
  repeat (destruct H as [<- | H]; [cbn; tauto |]). destruct H.
Qed.

(** The rows of the presets that ran, and what each emitted. *)
Lemma configuration_steps docs mets xs acc acc' tr :
  (forall x, In x xs -> In (snd x) get_manual_hyperparameter_configs) ->
  steps (returned (evaluate_configuration settings ext docs mets
                     (mkRunConfig 1) create_evaluation_dataset 4))
        acc xs acc' tr ->
  exists rts : list (Dict.t cell * trace),
    acc' = acc ++ map fst rts /\ tr = List.concat (map snd rts) /\
    Forall2 (fun x rt =>
               preset_run settings ext (mkRunConfig 1) 4 x (fst rt) (snd rt))
            xs rts.
Proof.
  intros Hxs. apply steps_appended.
  intros s0 [i cfg] s1 t Hin Hret.
  destruct (configuration_returned (Hxs _ Hin) Hret)
    as (raws & splits & H1 & -> & H3 & H4 & H5 & H6 & H7 & H8).
  eexists. split; [reflexivity |].
  exists raws, splits. cbn [fst snd]. repeat split; assumption.
Qed.

(** The table made of the rows of four presets. *)
Lemma final_results_of_rows raws1 raws2 raws3 raws4 nm1 nm2 nm3 nm4 :
  raws1 <> [] -> raws2 <> [] -> raws3 <> [] -> raws4 <> [] ->
  final_results
    [average_scores (map final_scores_of raws1) nm1;
     average_scores (map final_scores_of raws2) nm2;
     average_scores (map final_scores_of raws3) nm3;
     average_scores (map final_scores_of raws4) nm4]
  = Some
      {| nrows := 4;
         data :=
           ("combination_name", [Str nm1; Str nm2; Str nm3; Str nm4])
           :: map (fun m =>
                     (m, map (fun raws =>
                                Num (nanmean (map (Dict.get_default m NaN)
                                                  (map final_scores_of raws))))
                             [raws1; raws2; raws3; raws4]))
                  metric_names |}.
Proof.
  intros H1 H2 H3 H4.
  rewrite (average_scores_eq nm1 H1), (average_scores_eq nm2 H2),
    (average_scores_eq nm3 H3), (average_scores_eq nm4 H4).
  reflexivity.
Qed.

Lemma preset_run_row n x avg tr :
  preset_run settings ext (mkRunConfig 1) n x avg tr ->
  exists raws, raws <> [] /\ List.length raws = 4%nat /\
               avg = average_scores (map final_scores_of raws) (name (snd x)) /\
               recorded tr = map final_scores_of raws.
Proof.
  intros (raws & splits & Hl & -> & Hr & _). exists raws.
  repeat split; auto. destruct raws; [discriminate | congruence].
Qed.

(** What a run is made of, by the way it ends. *)
Lemma run_evaluation_inv docs w :
  match run_evaluation settings ext docs w with
  | (Ok None, tr, _) =>
      dependencies_raise settings ext w /\ Forall dependency_event tr
  | (Ok (Some df), tr, _) =>
      ~ dependencies_raise settings ext w /\
      exists td rts,
        Forall dependency_event td /\
        tr = td ++ List.concat (map snd rts) /\
        Forall2 (fun x rt =>
                   preset_run settings ext (mkRunConfig 1) 4 x (fst rt) (snd rt))
                (enumerate get_manual_hyperparameter_configs) rts /\
        final_results (map fst rts) = Some df
  | (Raise _, tr, _) =>
      ~ dependencies_raise settings ext w /\
      exists td pre x post rts t2,
        Forall dependency_event td /\
        enumerate get_manual_hyperparameter_configs = pre ++ x :: post /\
        Forall2 (fun x rt =>
                   preset_run settings ext (mkRunConfig 1) 4 x (fst rt) (snd rt))
                pre rts /\
        tr = td ++ List.concat (map snd rts) ++ t2 /\
        preset_abort settings ext (mkRunConfig 1) x t2
  end.
Proof.
  rewrite run_evaluation_eq. pose proof (configure_inv w) as Hc.
  destruct (configure_ragas_dependencies settings ext w)
    as [[[[[llm |] [emb |]] | e] td] w1]; try contradiction;
    destruct Hc as [Hd Hr]; [| now split].
  match goal with
  | |- context [for_each ?body ?xs [] w1] =>
      pose proof (for_each_graph body xs [] w1) as Hg;
      destruct (for_each body xs [] w1) as [[[all_results | e] tl] w2]
  end.
  - destruct (configuration_steps enumerate_presets Hg)
      as (rts & -> & -> & HF).
    cbn [app].
    destruct (Forall2_four HF)
      as ([r1 t1] & [r2 t2] & [r3 t3] & [r4 t4] & -> & H1 & H2 & H3 & H4).
    cbn [fst snd] in *.
    destruct (preset_run_row H1) as (raws1 & N1 & _ & E1 & _).
    destruct (preset_run_row H2) as (raws2 & N2 & _ & E2 & _).
    destruct (preset_run_row H3) as (raws3 & N3 & _ & E3 & _).
    destruct (preset_run_row H4) as (raws4 & N4 & _ & E4 & _).
    assert (Hf : exists df, final_results (map fst [(r1, t1); (r2, t2); (r3, t3); (r4, t4)])
                            = Some df).
    { cbn [map fst]. rewrite E1, E2, E3, E4.
      rewrite (final_results_of_rows _ _ _ _ N1 N2 N3 N4). eauto. }
    destruct Hf as [df Hf]. rewrite Hf. split; [assumption |].
    exists td, [(r1, t1); (r2, t2); (r3, t3); (r4, t4)]. auto.
  - destruct Hg as (pre & x & post & s1 & t1 & t2 & Hxs & Hs & Ha & ->).
    split; [assumption |].
    assert (Hpre : forall y, In y pre ->
                             In (snd y) get_manual_hyperparameter_configs).
    { intros y Hy. apply enumerate_presets. rewrite Hxs.
      apply in_or_app. now left. }
    destruct (configuration_steps Hpre Hs) as (rts & -> & -> & HF).
    assert (Hab : preset_abort settings ext (mkRunConfig 1) x t2).
    { destruct x as [i cfg].
      assert (Hin : In (i, cfg) (enumerate get_manual_hyperparameter_configs))
        by (rewrite Hxs; apply in_or_app; right; now left).
      exact (configuration_raised (enumerate_presets Hin) Ha). }
    exists td, pre, x, post, rts, t2.
    split; [assumption |]. split; [assumption |]. split; [assumption |].
    split; [reflexivity | assumption].
Qed.

(** A run that returns a table: the four presets ran to their end. *)
Lemma run_table_inv docs w df tr w' :
  run_evaluation settings ext docs w = (Ok (Some df), tr, w') ->
  exists td t1 t2 t3 t4 raws1 raws2 raws3 raws4,
    Forall dependency_event td /\
    tr = td ++ t1 ++ t2 ++ t3 ++ t4 /\
    preset_run settings ext (mkRunConfig 1) 4 (0%nat, preset 0)
      (average_scores (map final_scores_of raws1) (name (preset 0))) t1 /\
    preset_run settings ext (mkRunConfig 1) 4 (1%nat, preset 1)
      (average_scores (map final_scores_of raws2) (name (preset 1))) t2 /\
    preset_run settings ext (mkRunConfig 1) 4 (2%nat, preset 2)
      (average_scores (map final_scores_of raws3) (name (preset 2))) t3 /\
    preset_run settings ext (mkRunConfig 1) 4 (3%nat, preset 3)
      (average_scores (map final_scores_of raws4) (name (preset 3))) t4 /\
    (List.length raws1 = 4 /\ List.length raws2 = 4 /\
     List.length raws3 = 4 /\ List.length raws4 = 4)%nat /\
    recorded tr
    = map final_scores_of raws1 ++ map final_scores_of raws2
      ++ map final_scores_of raws3 ++ map final_scores_of raws4 /\
    df = table_of raws1 raws2 raws3 raws4.
Proof.
  intros E. pose proof (run_evaluation_inv docs w) as H. rewrite E in H.
  destruct H as (_ & td & rts & Hd & -> & HF & Hf).
  destruct (Forall2_four HF)
    as ([r1 t1] & [r2 t2] & [r3 t3] & [r4 t4] & -> & H1 & H2 & H3 & H4).
  cbn [fst snd map List.concat] in *.
  destruct (preset_run_row H1) as (raws1 & N1 & L1 & E1 & R1).
  destruct (preset_run_row H2) as (raws2 & N2 & L2 & E2 & R2).
  destruct (preset_run_row H3) as (raws3 & N3 & L3 & E3 & R3).
  destruct (preset_run_row H4) as (raws4 & N4 & L4 & E4 & R4).
  subst r1 r2 r3 r4.
  change (name (mkConfig "Creative & Balanced" 1000 4 (3 # 10)))
    with (name (preset 0)) in *.
  rewrite (final_results_of_rows _ _ _ _ N1 N2 N3 N4) in Hf.
  injection Hf as <-.
  exists td, t1, t2, t3, t4, raws1, raws2, raws3, raws4.
  rewrite app_nil_r.
  repeat split; auto.
  unfold recorded in *. rewrite !flat_map_app, R1, R2, R3, R4.
  rewrite (flat_map_silent _ (P := dependency_event)) by
    (try assumption; intros [[] | | | | | | | | | | | | | ]; cbn;
     try contradiction; reflexivity).
  reflexivity.
Qed.

Lemma pacing_app t1 t2 : pacing (t1 ++ t2) = pacing t1 ++ pacing t2.
Proof. apply flat_map_app. Qed.


Lemma aborted_prefix pre x post :
  enumerate get_manual_hyperparameter_configs = pre ++ x :: post ->
  (List.length pre < 4)%nat /\
  expected_pacing (List.length pre)
  = flat_map (preset_pacing 4) pre ++ [Configuration (name (snd x))].
Proof.
  cbn. intros H.
  destruct pre as [| p0 [| p1 [| p2 [| p3 pre]]]]; cbn in H;
    injection H as <-; try (intros; subst; split; [cbn; lia | reflexivity]).
  intros. destruct pre; discriminate.
Qed.

Lemma dependency_events_silent td :
  Forall dependency_event td ->
  pacing td = [] /\ stages td = [] /\ recorded td = [].
Proof.
  intros H. unfold pacing, stages, recorded.
  repeat split;
    (apply (flat_map_silent _ (P := dependency_event)); [| assumption]);
    intros [[] | | | | | | | | | | | | | ]; cbn; try contradiction; reflexivity.
Qed.

(** The pacing of a run, by the way it ends. *)
Lemma run_pacing docs w :
  match outcome_of (run_evaluation settings ext docs) w with
  | Ok (Some _) =>
      pacing (trace_of (run_evaluation settings ext docs) w) = expected_pacing 4
  | Ok None => pacing (trace_of (run_evaluation settings ext docs) w) = []
  | Raise _ =>
      exists n, (n < 4)%nat /\
        pacing (trace_of (run_evaluation settings ext docs) w) = expected_pacing n
  end.
Proof.
  pose proof (run_evaluation_inv docs w) as H. unfold outcome_of, trace_of.
  assert (Hruns : forall xs (rts : list (Dict.t cell * list event)),
             Forall2 (fun x rt =>
                        preset_run settings ext (mkRunConfig 1) 4 x
                                   (fst rt) (snd rt)) xs rts ->
             pacing (List.concat (map snd rts)) = flat_map (preset_pacing 4) xs).
  { intros xs rts. apply runs_flat_map.
    intros x r t (raws & splits & _ & _ & _ & Hp & _). exact Hp. }
  destruct (run_evaluation settings ext docs w) as [[[[df |] | e] tr] w'];
    cbn [fst snd].
  - destruct H as (_ & td & rts & Hd & -> & HF & _).
    rewrite pacing_app, (Hruns _ _ HF). destruct (dependency_events_silent Hd) as (-> & _).
    reflexivity.
  - destruct H as [_ Hd]. now destruct (dependency_events_silent Hd).
  - destruct H as (_ & td & pre & x & post & rts & t2 & Hd & Hxs & HF & -> & Ha).
    destruct (aborted_prefix _ _ _ Hxs) as [Hlt He].
    exists (List.length pre). split; [assumption |].
    rewrite !pacing_app. destruct (dependency_events_silent Hd) as (-> & _).
    destruct Ha as (-> & _). rewrite He. cbn [app]. f_equal.
    exact (Hruns _ _ HF).
Qed.

(** What every event of a run satisfies. *)
Lemma run_events docs w :
  Forall (fun e => uses_shared_settings settings e /\
                   scored_with (mkRunConfig 1) e)
         (trace_of (run_evaluation settings ext docs) w).
Proof.
  pose proof (run_evaluation_inv docs w) as H. unfold trace_of.
  assert (Hdep : forall td,
             Forall dependency_event td ->
             Forall (fun e => uses_shared_settings settings e /\
                              scored_with (mkRunConfig 1) e) td).
  { intros td. apply Forall_impl.
    intros [[] | | | | | | | | | | | | | ]; cbn; tauto. }
  assert (Hruns : forall xs (rts : list (Dict.t cell * list event)),
             Forall2 (fun x rt =>
                        preset_run settings ext (mkRunConfig 1) 4 x
                                   (fst rt) (snd rt)) xs rts ->
             Forall (fun e => uses_shared_settings settings e /\
                              scored_with (mkRunConfig 1) e)
                    (List.concat (map snd rts))).
  { intros xs rts. apply runs_Forall.
    intros x r t (raws & splits & _ & _ & _ & _ & HF & _). exact HF. }
  destruct (run_evaluation settings ext docs w) as [[[[df |] | e] tr] w'];
    cbn [fst snd].
  - destruct H as (_ & td & rts & Hd & -> & HF & _).
    apply Forall_app. split; [now apply Hdep | now apply (Hruns _ _ HF)].
  - destruct H as [_ Hd]. now apply Hdep.
  - destruct H as (_ & td & pre & x & post & rts & t2 & Hd & _ & HF & -> & Ha).
    apply Forall_app. split; [now apply Hdep |].
    apply Forall_app. split; [now apply (Hruns _ _ HF) |].
    now destruct Ha as (_ & _ & Ha & _).
Qed.

Lemma dependencies_exclusive w :
  dependencies_succeed settings ext w -> dependencies_raise settings ext w ->
  False.
Proof.
  intros (llm & emb & Hs) Hr. pose proof (configure_inv w) as Hc.
  unfold outcome_of in Hs.
  destruct (configure_ragas_dependencies settings ext w) as [[r td] w1].
  cbn [fst] in Hs. subst r. now destruct Hc.
Qed.

(** A run whose dependencies and chains can be built returns a table. *)
Lemma run_succeeds docs w :
  dependencies_succeed settings ext w -> chain_construction_succeeds ext ->
  exists df tr w', run_evaluation settings ext docs w = (Ok (Some df), tr, w').
Proof.
  intros Hd Hc. pose proof (run_evaluation_inv docs w) as H.
  destruct (run_evaluation settings ext docs w) as [[[[df |] | e] tr] w'].
  - now exists df, tr, w'.
  - destruct H as [Hr _]. destruct (dependencies_exclusive Hd Hr).
  - destruct H as (_ & td & pre & x & post & rts & t2 & _ & _ & _ & _ & Ha).
    destruct Ha as (_ & _ & _ & Hn). contradiction.
Qed.





End Run.

(* ===================================================================== *)
(** ** The properties of the specification                                *)
(* ===================================================================== *)

(** C1.  The average of a metric over the records of a configuration is
    the arithmetic mean of the scores that are present; when every score
    of the metric is missing the average is the missing value, and the
    averaging step has no failing case. *)
Theorem average_ignores_missing_scores
    (raws : list (Dict.t score)) (config_name metric : string) :
  raws <> [] ->
  In metric metric_names ->
  let records := map final_scores_of raws in
  exists x,
    Dict.get metric (average_scores records config_name) = Some (Num x) /\
    score_eq x (mean_ignoring_missing (map (Dict.get_default metric NaN) records)) /\
    ((forall r, In r records -> Dict.get_default metric NaN r = NaN) -> x = NaN).
Proof.
  intros Hne Hin records.
  exists (nanmean (map (Dict.get_default metric NaN) records)).
  split; [| split].
  - unfold records. rewrite (average_scores_eq config_name Hne).
    cbn in Hin.
    repeat (destruct Hin as [<- | Hin]; [reflexivity |]). destruct Hin.
  - apply nanmean_spec.
  - intros Hall. apply nanmean_all_missing.
    intros x Hx. apply in_map_iff in Hx. destruct Hx as (r & <- & Hr). auto.
Qed.

Lemma average_ignores_missing_scores_witness :
  exists x,
    Dict.get "faithfulness"
      (average_scores
         (map final_scores_of
              [Demo.full_scores 1 (1 # 2) (1 # 4) (3 # 4); [];
               [("faithfulness", Some (1 # 2))]; [("faithfulness", NaN)]])
         "Creative & Balanced")
    = Some (Num x) /\ score_eq x (Some (3 # 4)).
Proof.
  destruct (@average_ignores_missing_scores
              [Demo.full_scores 1 (1 # 2) (1 # 4) (3 # 4); [];
               [("faithfulness", Some (1 # 2))]; [("faithfulness", NaN)]]
              "Creative & Balanced" "faithfulness")
    as (x & Hx & Hm & _).
  - discriminate.
  - cbn. tauto.
  - exists x. split; [exact Hx |].
    vm_compute in Hx. injection Hx as <-. reflexivity.
Defined.

(** C5.  The presets are a fixed list of four named triples of chunk
    size, retrieval depth and temperature; the benchmark is a fixed frame
    of four rows in which question [i] stands beside expected answer [i]. *)
Theorem fixed_presets_and_benchmark :
  List.length get_manual_hyperparameter_configs = 4%nat /\
  map name get_manual_hyperparameter_configs
  = ["Creative & Balanced"; "Wide Context Sweep"; "Balanced Natural";
     "Dense Precision"] /\
  map (fun c => (chunk_size c, top_k c, temperature c))
      get_manual_hyperparameter_configs
  = [(1000%Z, 4%Z, 3 # 10); (1200%Z, 6%Z, 1 # 10); (1000%Z, 3%Z, 2 # 10);
     (1800%Z, 2%Z, 15 # 100)] /\
  nrows create_evaluation_dataset = 4%nat /\
  columns create_evaluation_dataset = ["question"; "ground_truth"] /\
  List.length questions = 4%nat /\ List.length ground_truths = 4%nat /\
  iterrows EmptyString create_evaluation_dataset
  = map (fun i => (i, [("question", nth i questions EmptyString);
                       ("ground_truth", nth i ground_truths EmptyString)]))
        (seq 0 4).
Proof. repeat split; reflexivity. Qed.

(** C3.  One question of the loop, whatever the libraries do: the
    iteration returns instead of raising, so the loop goes on; it appends
    exactly one record whose keys are the four metric names, each once;
    the chain is invoked once and the scoring library at most once; and
    when the chain, the retrieval of the contexts or the scoring raises,
    or the result has an unrecognized shape, all four scores of the record
    are missing. *)
Theorem failed_question_recorded_as_missing
    (World : Type) (ext : Externals World) (mets : list Metric) (rc : RunConfig)
    (chain : RagChain) (retr : Retriever) (n : nat)
    (combination_scores : list (Dict.t score)) (index : nat)
    (row : Dict.t string) (q gt : string) (w : World) :
  Dict.get "question" row = Some q ->
  Dict.get "ground_truth" row = Some gt ->
  exists record tr w',
    evaluate_question ext mets rc chain retr n combination_scores (index, row) w
    = (Ok (combination_scores ++ [record]), tr, w') /\
    Dict.keys record = metric_names /\ NoDup metric_names /\
    recorded tr = [record] /\
    count_chain_invocations tr = 1%nat /\
    (count_scoring_calls tr <= 1)%nat /\
    (question_fails ext mets rc chain retr q gt w -> record = nan_record).
Proof.
  intros Hq Hgt. rewrite evaluate_question_eq.
  pose proof (score_question_counts ext mets rc chain retr row Hq Hgt w) as Hc.
  pose proof (score_question_recorded ext mets rc chain retr row Hq Hgt w) as Hr.
  pose proof (@score_question_fails _ ext mets rc chain retr row q gt Hq Hgt w)
    as Hf.
  unfold trace_of, outcome_of in *.
  destruct (score_question ext mets rc chain retr row w) as [[r t] w1].
  cbn [fst snd] in *. destruct Hc as [Hc1 Hc2].
  eexists _, _, _. split; [reflexivity |].
  split; [apply final_scores_of_keys |].
  split; [repeat constructor; cbn; intuition discriminate |].
  unfold recorded, count_chain_invocations, count_scoring_calls in *.
  cbn [flat_map filter]. rewrite flat_map_app, !filter_app, !length_app, Hr, Hc1.
  repeat split.
  - destruct r; reflexivity.
  - destruct r; reflexivity.
  - destruct r; cbn; lia.
  - intros H. specialize (Hf H). destruct r as [d | e].
    + subst d. apply nan_scores_record.
    + apply nan_scores_record.
Qed.

Lemma failed_question_recorded_as_missing_witness :
  exists record tr w',
    evaluate_question Demo.ext metrics (mkRunConfig 1)
      (preset_chain Demo.settings Demo.docs 4 (3 # 10))
      (chain_retriever (preset_chain Demo.settings Demo.docs 4 (3 # 10)))
      4 [] (1%nat, [("question", "q"); ("ground_truth", "a")]) 1%nat
    = (Ok ([] ++ [record]), tr, w') /\
    Dict.keys record = metric_names /\ NoDup metric_names /\
    recorded tr = [record] /\
    count_chain_invocations tr = 1%nat /\
    (count_scoring_calls tr <= 1)%nat /\
    (question_fails Demo.ext metrics (mkRunConfig 1)
       (preset_chain Demo.settings Demo.docs 4 (3 # 10))
       (chain_retriever (preset_chain Demo.settings Demo.docs 4 (3 # 10)))
       "q" "a" 1%nat ->
     record = nan_record).
Proof.
  apply (@failed_question_recorded_as_missing
           Demo.World Demo.ext metrics (mkRunConfig 1)
           (preset_chain Demo.settings Demo.docs 4 (3 # 10))
           (chain_retriever (preset_chain Demo.settings Demo.docs 4 (3 # 10)))
           4 [] 1%nat [("question", "q"); ("ground_truth", "a")] "q" "a" 1%nat);
    reflexivity.
Defined.

(** C9.  When configuring the dependencies raises,
    [configure_ragas_dependencies] returns [(None, None)] and
    [run_evaluation] returns [None] having done nothing more: its trace
    and its final world are those of the failed configuration alone. *)
Theorem dependency_failure_returns_none
    (World : Type) (settings : Settings) (ext : Externals World)
    (original_docs : list Document) (w : World) :
  dependencies_raise settings ext w ->
  exists tr w',
    configure_ragas_dependencies settings ext w = (Ok (None, None), tr, w') /\
    run_evaluation settings ext original_docs w = (Ok None, tr, w') /\
    Forall dependency_event tr.
Proof.
  intros Hr. rewrite run_evaluation_eq.
  pose proof (configure_inv settings ext w) as Hc.
  destruct (configure_ragas_dependencies settings ext w)
    as [[[[[llm |] [emb |]] | e] td] w1]; try contradiction.
  - destruct Hc as [_ Hn]. contradiction.
  - destruct Hc as [Hd _]. now exists td, w1.
Qed.

Lemma dependency_failure_returns_none_witness :
  exists tr w',
    configure_ragas_dependencies Demo.settings Demo.ext_no_llm 0%nat
    = (Ok (None, None), tr, w') /\
    run_evaluation Demo.settings Demo.ext_no_llm Demo.docs 0%nat
    = (Ok None, tr, w') /\
    Forall dependency_event tr.
Proof.
  apply (@dependency_failure_returns_none
           Demo.World Demo.settings Demo.ext_no_llm Demo.docs 0%nat).
  exists "invalid API key". reflexivity.
Defined.

(** C10.  Every event of a run that touches a chain uses the chain of one
    of the presets: the splitter has the shared chunk overlap and the
    chunk size of a preset, the index is built with the shared embedding
    model, and the chain is made of the shared prompt, model identifier
    and output limit, with only the retrieval depth and the temperature
    (and, through the splits, the chunk size) taken from the preset. *)
Theorem chains_share_settings
    (World : Type) (settings : Settings) (ext : Externals World)
    (original_docs : list Document) (w : World) :
  Forall (uses_shared_settings settings)
         (trace_of (run_evaluation settings ext original_docs) w).
Proof.
  eapply Forall_impl; [| apply run_events]. cbn. tauto.
Qed.

(** C2.  The columns of the table [run_evaluation] returns are
    ['combination_name'] followed by the metrics of the configured list
    that occur as keys of the collected results, in the order of that
    list; all four occur, so the columns are the name column and the four
    metrics. *)
Theorem result_columns_follow_metric_list
    (World : Type) (settings : Settings) (ext : Externals World)
    (original_docs : list Document) (w w' : World) (df : DataFrame cell)
    (tr : trace) :
  run_evaluation settings ext original_docs w = (Ok (Some df), tr, w') ->
  exists all_results,
    final_results all_results = Some df /\
    columns df
    = "combination_name"
      :: filter (fun nm => appears_in nm all_results) metric_names /\
    columns df
    = ["combination_name"; "faithfulness"; "answer_relevancy";
       "context_precision"; "context_recall"].
Proof.
  intros E.
  destruct (run_table_inv settings ext original_docs w E)
    as (td & t1 & t2 & t3 & t4 & r1 & r2 & r3 & r4 & _ & _ & _ & _ & _ & _ & _ & _ & Hdf).
  pose proof (run_evaluation_inv settings ext original_docs w) as H.
  rewrite E in H. destruct H as (_ & _ & rts & _ & _ & _ & Hf).
  exists (map fst rts). split; [exact Hf |]. split.
  - exact (final_results_columns _ Hf).
  - subst df. reflexivity.
Qed.

Lemma result_columns_follow_metric_list_witness :
  exists all_results,
    final_results all_results = Some Demo.table /\
    columns Demo.table
    = "combination_name"
      :: filter (fun nm => appears_in nm all_results) metric_names /\
    columns Demo.table
    = ["combination_name"; "faithfulness"; "answer_relevancy";
       "context_precision"; "context_recall"].
Proof.
  apply (@result_columns_follow_metric_list
           Demo.World Demo.settings Demo.ext Demo.docs 0%nat
           (snd Demo.run) Demo.table (snd (fst Demo.run))).
  vm_compute. reflexivity.
Defined.


Example expected_pacing_of_first_preset :
  firstn 10 (expected_pacing 4)
  = [Configuration "Creative & Balanced";
     Question (nth 0 questions EmptyString); Pause 180;
     Question (nth 1 questions EmptyString); Pause 180;
     Question (nth 2 questions EmptyString); Pause 180;
     Question (nth 3 questions EmptyString); Pause 180;
     Pause 300]
  /\ skipn 30 (expected_pacing 4)
  = [Configuration "Dense Precision";
     Question (nth 0 questions EmptyString); Pause 180;
     Question (nth 1 questions EmptyString); Pause 180;
     Question (nth 2 questions EmptyString); Pause 180;
     Question (nth 3 questions EmptyString); Pause 180].
Proof. split; reflexivity. Qed.







(* ===================================================================== *)
(** ** Further properties of the script                                   *)
(* ===================================================================== *)

(** *** The record of a question *)

(** X1.  Line 227 keeps of a dictionary of scores exactly the four
    configured metrics: a listed metric gets the score the dictionary
    holds for it, or the missing value when the dictionary lacks it; any
    other key of the dictionary is dropped. *)
Theorem final_scores_keep_listed_metrics (scores_dict : Dict.t score) (k : string) :
  Dict.get k (final_scores_of scores_dict)
  = if str_in k metric_names
    then Some (Dict.get_default k NaN scores_dict)
    else None.
Proof.
  rewrite final_scores_of_eq. unfold metric_names, metrics, str_in. cbn.
  repeat match goal with
    | |- context [String.eqb k ?s] =>
        destruct (String.eqb_spec k s) as [-> | ?]; cbn; try reflexivity
    end.
Qed.

(** *** Averages *)






(** *** The final table *)

Lemma get_map_key {V} (f : string -> V) (l : list string) (c : string) :
  Dict.get c (map (fun c' => (c', f c')) l)
  = if str_in c l then Some (f c) else None.
Proof.
  unfold str_in. induction l as [| c0 l IH]; cbn; [reflexivity |].
  destruct (String.eqb_spec c c0) as [-> | _]; cbn; [reflexivity | exact IH].
Qed.

Lemma select_get {A} (cols : list string) (df : DataFrame A) d c :
  select cols df = Some d ->
  Dict.get c d = if str_in c cols then Dict.get c (data df) else None.
Proof.
  unfold str_in. revert d.
  induction cols as [| c0 cols IH]; intros d; cbn.
  - intros [= <-]. reflexivity.
  - destruct (Dict.get c0 (data df)) as [xs |] eqn:E0; [| discriminate].
    destruct (select cols df) as [rest |]; [| discriminate].
    intros [= <-]. cbn.
    destruct (String.eqb_spec c c0) as [-> | _]; cbn; [now rewrite E0 |].
    now apply IH.
Qed.

Lemma select_Some {A} (cols : list string) (df : DataFrame A) :
  Forall (fun c => Dict.get c (data df) <> None) cols ->
  exists d, select cols df = Some d.
Proof.
  induction 1 as [| c cols Hc _ [rest IH]]; cbn; [eauto |].
  destruct (Dict.get c (data df)); [| congruence]. rewrite IH. eauto.
Qed.

Lemma select_present {A} (cols : list string) (df : DataFrame A) d :
  select cols df = Some d ->
  Forall (fun c => Dict.get c (data df) <> None) cols.
Proof.
  revert d. induction cols as [| c cols IH]; intros d; cbn; [constructor |].
  destruct (Dict.get c (data df)) eqn:E; [| discriminate].
  destruct (select cols df) eqn:E'; [| discriminate].
  intros _. constructor; [congruence | eauto].
Qed.

Lemma from_records_get {A} (missing : A) (records : list (Dict.t A)) c :
  Dict.get c (data (from_records missing records))
  = if str_in c (union_keys records)
    then Some (map (Dict.get_default c missing) records)
    else None.
Proof.
  exact (get_map_key (fun c' => map (Dict.get_default c' missing) records)
                     (union_keys records) c).
Qed.

(** X3.  Lines 252-254 on any list of collected results.  The selection
    fails (the [KeyError] of the source) exactly when no result carries a
    ['combination_name']; otherwise the table has one row per result, in
    order, and the cell of a row under a column is the value the result
    holds for that key, or the missing value when the result lacks it. *)
Theorem final_table_cells (all_results : list (Dict.t cell)) :
  match final_results all_results with
  | None => appears_in "combination_name" all_results = false
  | Some df =>
      appears_in "combination_name" all_results = true /\
      nrows df = List.length all_results /\
      forall i r c,
        nth_error all_results i = Some r ->
        In c (columns df) ->
        cell_at df i c = Some (Dict.get_default c (Num NaN) r)
  end.
Proof.
  unfold final_results.
  set (df0 := from_records (Num NaN) all_results).
  set (cols := "combination_name" :: filter _ metric_names).
  destruct (select cols df0) as [d |] eqn:E.
  - pose proof (@select_present _ cols df0 d E) as Hp.
    split; [| split; [reflexivity |]].
    + inversion Hp as [| ? ? Hc _]; subst.
      unfold df0 in Hc. rewrite from_records_get in Hc.
      rewrite <- str_in_columns_appears, from_records_columns.
      destruct (str_in "combination_name" (union_keys all_results));
        [reflexivity | congruence].
    + intros i r c Hi Hc. unfold cell_at, columns in *. cbn [data] in *.
      rewrite (select_keys _ _ E) in Hc.
      rewrite (@select_get _ cols df0 d c E).
      apply str_in_In in Hc. rewrite Hc.
      rewrite Forall_forall in Hp. apply str_in_In in Hc.
      specialize (Hp c Hc). unfold df0 in *.
      rewrite from_records_get in *.
      destruct (str_in c (union_keys all_results)); [| congruence].
      now apply map_nth_error.
  - destruct (appears_in "combination_name" all_results) eqn:Ha; [| reflexivity].
    exfalso.
    assert (Hp : Forall (fun c => Dict.get c (data df0) <> None) cols).
    { unfold cols. constructor.
      - unfold df0. rewrite from_records_get.
        rewrite <- str_in_columns_appears, from_records_columns in Ha.
        rewrite Ha. discriminate.
      - apply Forall_forall. intros c Hc. apply filter_In in Hc.
        destruct Hc as [_ Hc]. unfold df0 in *.
        rewrite from_records_get. rewrite from_records_columns in Hc.
        rewrite Hc. discriminate. }
    destruct (@select_Some _ cols df0 Hp) as [d Hd]. congruence.
Qed.

(** *** A question that is scored *)

Section ScoredQuestion.

Variable World : Type.
Variable ext : Externals World.
Variables (mets : list Metric) (rc : RunConfig).
Variables (chain : RagChain) (retr : Retriever).
Variables (row : Dict.t string) (q gt : string).
Hypothesis Hq : Dict.get "question" row = Some q.
Hypothesis Hgt : Dict.get "ground_truth" row = Some gt.

Variables (w w1 w2 w3 : World) (response : string) (t : trace)
          (docs : list Document) (res : EvaluationResult).
Hypothesis Hchain : rag_chain_invoke ext chain q w = (Ok response, t, w1).
Hypothesis Hretr : retriever_invoke ext retr q w1 = (Ok docs, w2).
Hypothesis Heval :
  ragas_evaluate ext (mkDataset [q] [response] [map page_content docs] [gt])
                 mets true rc w2 = (Ok res, w3).

(** The [try] body up to the reading of the scores. *)
Lemma score_question_reads :
  score_question ext mets rc chain retr row w
  = let '(r, tr, w4) := read_scores ext res nan_scores w3 in
    (r,
     t ++ RetrieverInvoke retr q
       :: Evaluate (mkDataset [q] [response] [map page_content docs] [gt])
                   mets true rc
       :: tr,
     w4).
Proof.
  unfold score_question, getitem. rewrite Hq, Hgt.
  unfold bind at 1. cbn [ret]. unfold bind at 1. rewrite Hchain.
  unfold bind at 1. cbn [ret]. unfold bind at 1. unfold call at 1.
  rewrite Hretr. unfold bind at 1. cbn [ret]. unfold bind at 1. cbn [ret].
  unfold bind at 1. unfold call at 1. rewrite Heval.
  destruct (read_scores ext res nan_scores w3) as [[r tr] w4].
  cbn. reflexivity.
Qed.

End ScoredQuestion.

(** X4.  When the chain answers, the contexts are retrieved and the
    scoring library returns its scores as a non-empty list or as a
    dictionary, the record appended for the question holds the scores of
    the first element of the list (later elements are not read) or of the
    dictionary, cut down to the configured metrics; the scoring library
    was called once, on the answer the chain gave and the contexts of the
    second retrieval. *)
Theorem scored_question_keeps_its_scores
    (World : Type) (ext : Externals World) (mets : list Metric) (rc : RunConfig)
    (chain : RagChain) (retr : Retriever) (n index : nat)
    (combination_scores : list (Dict.t score))
    (row : Dict.t string) (q gt : string)
    (w w1 w2 w3 : World) (response : string) (t : trace)
    (docs : list Document) (scores_obj : ScoresObj) (d : Dict.t score) :
  Dict.get "question" row = Some q ->
  Dict.get "ground_truth" row = Some gt ->
  rag_chain_invoke ext chain q w = (Ok response, t, w1) ->
  retriever_invoke ext retr q w1 = (Ok docs, w2) ->
  ragas_evaluate ext (mkDataset [q] [response] [map page_content docs] [gt])
                 mets true rc w2 = (Ok (ResultWithScores scores_obj), w3) ->
  (exists rest, scores_obj = ScoresList (d :: rest)) \/ scores_obj = ScoresDict d ->
  exists tr,
    evaluate_question ext mets rc chain retr n combination_scores (index, row) w
    = (Ok (combination_scores ++ [final_scores_of d]), tr, time_sleep ext 180 w3) /\
    In (Evaluate (mkDataset [q] [response] [map page_content docs] [gt])
                 mets true rc) tr /\
    count_scoring_calls tr = 1%nat.
Proof.
  intros Hq Hgt Hc Hr He Hs.
  pose proof (score_question_counts ext mets rc chain retr row Hq Hgt w) as Hn.
  rewrite evaluate_question_eq.
  unfold trace_of in Hn.
  rewrite (@score_question_reads _ ext mets rc chain retr row q gt Hq Hgt
             w w1 w2 w3 response t docs _ Hc Hr He) in *.
  assert (Hread : exists m, read_scores ext (ResultWithScores scores_obj)
                              nan_scores w3 = (Ok d, [Printed m], w3)).
  { destruct Hs as [[rest ->] | ->]; eexists; reflexivity. }
  destruct Hread as [m Hread]. rewrite Hread in *. cbn [fst snd] in Hn.
  eexists. split; [reflexivity |]. split.
  - right. apply in_or_app. left. apply in_or_app. right. right. now left.
  - destruct Hn as [Hn1 Hn2]. unfold count_scoring_calls in *.
    cbn [filter]. rewrite !filter_app, !length_app in *. cbn in *. lia.
Qed.

Lemma scored_question_keeps_its_scores_witness :
  exists tr,
    evaluate_question Demo.ext metrics (mkRunConfig 1)
      (preset_chain Demo.settings Demo.docs 4 (3 # 10))
      (chain_retriever (preset_chain Demo.settings Demo.docs 4 (3 # 10)))
      4 [] (0%nat, [("question", "q"); ("ground_truth", "a")]) 0%nat
    = (Ok ([] ++ [final_scores_of (Demo.full_scores 1 (1 # 2) (1 # 4) (3 # 4))]),
       tr, time_sleep Demo.ext 180 1%nat) /\
    In (Evaluate
          (mkDataset ["q"] ["respuesta"] [map page_content Demo.docs] ["a"])
          metrics true (mkRunConfig 1)) tr /\
    count_scoring_calls tr = 1%nat.
Proof.
  eapply (@scored_question_keeps_its_scores
            Demo.World Demo.ext metrics (mkRunConfig 1)
            (preset_chain Demo.settings Demo.docs 4 (3 # 10))
            (chain_retriever (preset_chain Demo.settings Demo.docs 4 (3 # 10)))
            4 0%nat [] [("question", "q"); ("ground_truth", "a")] "q" "a"
            0%nat 0%nat 0%nat 1%nat "respuesta" _ Demo.docs
            (ScoresList [Demo.full_scores 1 (1 # 2) (1 # 4) (3 # 4)])
            (Demo.full_scores 1 (1 # 2) (1 # 4) (3 # 4))).
  - reflexivity.
  - reflexivity.
  - reflexivity.
  - reflexivity.
  - reflexivity.
  - left. exists []. reflexivity.
Defined.

(** X5.  When the scores come as an object with a [to_dict] method, the
    record holds what [to_dict] returns, cut down to the configured
    metrics; when [to_dict] raises, the exception is caught like any other
    failure of the question: the record is all missing, the message is
    printed cut to 100 characters, and the iteration still returns. *)
Theorem scores_object_is_read_through_to_dict
    (World : Type) (ext : Externals World) (mets : list Metric) (rc : RunConfig)
    (chain : RagChain) (retr : Retriever) (n index : nat)
    (combination_scores : list (Dict.t score))
    (row : Dict.t string) (q gt : string)
    (w w1 w2 w3 : World) (response : string) (t : trace)
    (docs : list Document) (type_name : string) :
  Dict.get "question" row = Some q ->
  Dict.get "ground_truth" row = Some gt ->
  rag_chain_invoke ext chain q w = (Ok response, t, w1) ->
  retriever_invoke ext retr q w1 = (Ok docs, w2) ->
  ragas_evaluate ext (mkDataset [q] [response] [map page_content docs] [gt])
                 mets true rc w2
  = (Ok (ResultWithScores (ScoresWithToDict type_name)), w3) ->
  exists record tr w',
    evaluate_question ext mets rc chain retr n combination_scores (index, row) w
    = (Ok (combination_scores ++ [record]), tr, w') /\
    match scores_to_dict ext type_name w3 with
    | (Ok d, _) => record = final_scores_of d
    | (Raise e, _) =>
        record = nan_record /\
        In (Printed (MsgFailedByException (String.substring 0 100 e))) tr
    end.
Proof.
  intros Hq Hgt Hc Hr He.
  rewrite evaluate_question_eq.
  rewrite (@score_question_reads _ ext mets rc chain retr row q gt Hq Hgt
             w w1 w2 w3 response t docs _ Hc Hr He).
  unfold read_scores, bind, call, print, ret.
  destruct (scores_to_dict ext type_name w3) as [[d | e] w4]; cbn.
  - eexists _, _, _. split; reflexivity.
  - eexists _, _, _. split; [reflexivity |]. split; [apply nan_scores_record |].
    right. apply in_or_app. right. now left.
Qed.

Lemma scores_object_is_read_through_to_dict_witness :
  exists record tr w',
    evaluate_question Demo.ext metrics (mkRunConfig 1)
      (preset_chain Demo.settings Demo.docs 4 (3 # 10))
      (chain_retriever (preset_chain Demo.settings Demo.docs 4 (3 # 10)))
      4 [] (0%nat, [("question", "q"); ("ground_truth", "a")]) 4%nat
    = (Ok ([] ++ [record]), tr, w') /\
    match scores_to_dict Demo.ext "Dataset" 5%nat with
    | (Ok d, _) => record = final_scores_of d
    | (Raise e, _) =>
        record = nan_record /\
        In (Printed (MsgFailedByException (String.substring 0 100 e))) tr
    end.
Proof.
  eapply (@scores_object_is_read_through_to_dict
            Demo.World Demo.ext metrics (mkRunConfig 1)
            (preset_chain Demo.settings Demo.docs 4 (3 # 10))
            (chain_retriever (preset_chain Demo.settings Demo.docs 4 (3 # 10)))
            4 0%nat [] [("question", "q"); ("ground_truth", "a")] "q" "a"
            4%nat 4%nat 4%nat 5%nat "respuesta" _ Demo.docs "Dataset");
    reflexivity.
Defined.

(** *** Dependencies and chains *)

(** X6.  [configure_ragas_dependencies] never lets an exception out and
    never returns one object without the other: it returns the scoring
    model (temperature 0, timeout 300 s) and the embeddings (CPU,
    normalised), both wrapped, or, exactly when one of the four
    constructor calls raised, [(None, None)] after printing the error. *)
Theorem dependencies_come_both_or_none
    (World : Type) (settings : Settings) (ext : Externals World) (w : World) :
  exists r tr w',
    configure_ragas_dependencies settings ext w = (Ok r, tr, w') /\
    ((r = (Some (mkLLMWrapper (evaluation_llm settings)),
           Some (mkEmbWrapper (shared_embeddings settings))) /\
      ~ dependencies_raise settings ext w /\
      In (Printed MsgDepsConfigured) tr)
     \/
     (r = (None, None) /\
      exists e, outcome_of (build_ragas_dependencies settings ext) w = Raise e /\
                In (Printed (MsgDepsError e)) tr)).
Proof.
  unfold dependencies_raise, outcome_of, configure_ragas_dependencies,
    build_ragas_dependencies, try_except, bind, call, print, ret.
  repeat match goal with
    | |- context [match ?f ext ?a ?w0 with _ => _ end] =>
        destruct (f ext a w0) as [[[] | ?] ?]; cbn
    end;
    eexists _, _, _; (split; [reflexivity |]);
    first [ left; split; [reflexivity |]; split;
            [intros [? ?]; discriminate | cbn; tauto]
          | right; split; [reflexivity |]; eexists; split;
            [reflexivity | cbn; tauto] ].
Qed.

(** X7.  The chain [create_rag_chain] returns is built over what the
    splitter returned for the given documents, chunk size and shared
    overlap: the index holds exactly those splits; the chain retrieves
    [top_k] documents from it and generates at the given temperature; and
    the retriever returned beside the chain is the chain's own. *)
Theorem chain_is_built_over_the_splits
    (World : Type) (settings : Settings) (ext : Externals World)
    (docs : list Document) (temperature : Q) (top_k chunk_size : Z)
    (w w' : World) (rag_chain : RagChain) (retriever : Retriever) (tc : trace) :
  create_rag_chain settings ext docs temperature top_k chunk_size w
  = (Ok (rag_chain, retriever), tc, w') ->
  exists splits w1,
    split_documents ext (mkSplitter chunk_size (CHUNK_OVERLAP settings)) docs w
    = (Ok splits, w1) /\
    indexed (vectorstore retriever) = splits /\
    In (FaissFromDocuments splits (shared_embeddings settings)) tc /\
    retriever = chain_retriever rag_chain /\
    search_k retriever = top_k /\
    llm_temperature (chain_llm rag_chain) = temperature /\
    rag_chain = preset_chain settings splits top_k temperature.
Proof.
  unfold create_rag_chain, bind, call, ret.
  destruct (split_documents ext _ docs w) as [[splits | e] w1]; [| discriminate].
  destruct (embeddings_init ext _ w1) as [[[] | e] w2]; [| discriminate].
  destruct (faiss_from_documents ext splits _ w2) as [[[] | e] w3];
    [| discriminate].
  destruct (chat_model_init ext _ w3) as [[[] | e] w4]; [| discriminate].
  intros [= <- <- <- <-]. exists splits, w1.
  repeat split; try reflexivity. cbn. tauto.
Qed.

Lemma chain_is_built_over_the_splits_witness :
  exists splits w1,
    split_documents Demo.ext (mkSplitter 1000 (CHUNK_OVERLAP Demo.settings))
                    Demo.docs 0%nat
    = (Ok splits, w1) /\
    indexed (vectorstore
               (chain_retriever (preset_chain Demo.settings Demo.docs 4 (3 # 10))))
    = splits /\
    In (FaissFromDocuments splits (shared_embeddings Demo.settings))
       (trace_of (create_rag_chain Demo.settings Demo.ext Demo.docs (3 # 10) 4 1000)
                 0%nat) /\
    chain_retriever (preset_chain Demo.settings Demo.docs 4 (3 # 10))
    = chain_retriever (preset_chain Demo.settings Demo.docs 4 (3 # 10)) /\
    search_k (chain_retriever (preset_chain Demo.settings Demo.docs 4 (3 # 10)))
    = 4%Z /\
    llm_temperature (chain_llm (preset_chain Demo.settings Demo.docs 4 (3 # 10)))
    = 3 # 10 /\
    preset_chain Demo.settings Demo.docs 4 (3 # 10)
    = preset_chain Demo.settings splits 4 (3 # 10).
Proof.
  apply (@chain_is_built_over_the_splits
           Demo.World Demo.settings Demo.ext Demo.docs (3 # 10) 4%Z 1000%Z
           0%nat 0%nat).
  reflexivity.
Defined.

(** *** Invariants of a whole run *)

Ltac oracle_cases ext :=
  repeat match goal with
    | |- context [retriever_invoke ext ?r ?q ?w] =>
        destruct (retriever_invoke ext r q w) as [[? | ?] ?]; cbn
    | |- context [llm_invoke ext ?m ?p ?w] =>
        destruct (llm_invoke ext m p w) as [[? | ?] ?]; cbn
    | |- context [ragas_evaluate ext ?d ?m ?b ?r ?w] =>
        destruct (ragas_evaluate ext d m b r w)
          as [[[[[| ? ?] | ? | ? | ?] | ] | ?] ?]; cbn
    | |- context [scores_to_dict ext ?t ?w] =>
        destruct (scores_to_dict ext t w) as [[? | ?] ?]; cbn
    end.



Section RunInvariant.

Variable World : Type.
Variable settings : Settings.
Variable ext : Externals World.

Lemma for_each_Forall {A S} (P : event -> Prop) (body : S -> A -> M World S)
    (xs : list A) :
  (forall s x w, In x xs -> Forall P (trace_of (body s x) w)) ->
  forall s w, Forall P (trace_of (for_each body xs s) w).
Proof.
  unfold trace_of. induction xs as [| x xs IH]; intros H s w; cbn.
  - constructor.
  - unfold bind. pose proof (H s x w (or_introl eq_refl)) as Hx.
    destruct (body s x w) as [[[s1 | e] t1] w1]; cbn [fst snd] in *;
      [| assumption].
    specialize (IH (fun s0 x0 w0 Hin => H s0 x0 w0 (or_intror Hin)) s1 w1).
    destruct (for_each body xs s1 w1) as [[r t2] w2]. cbn [fst snd] in *.
    now apply Forall_app.
Qed.



Lemma configure_values w :
  match configure_ragas_dependencies settings ext w with
  | (Ok (Some llm, Some emb), _, _) =>
      llm = mkLLMWrapper (evaluation_llm settings) /\
      emb = mkEmbWrapper (shared_embeddings settings)
  | _ => True
  end.
Proof.
  unfold configure_ragas_dependencies, build_ragas_dependencies, try_except,
    bind, call, print, ret.
  repeat match goal with
    | |- context [match ?f ext ?a ?w0 with _ => _ end] =>
        destruct (f ext a w0) as [[[] | ?] ?]; cbn
    end; auto.
Qed.

Variable P : event -> Prop.
Variable docs : list Document.

Local Abbreviation mets :=
  (map (configure_metric ext (mkLLMWrapper (evaluation_llm settings))
                         (mkEmbWrapper (shared_embeddings settings)))
       metrics).

Hypothesis Hdep : forall e, dependency_event e -> P e.
Hypothesis Hcon :
  forall cfg e, In cfg get_manual_hyperparameter_configs ->
                construction_event settings docs cfg e -> P e.
Hypothesis Hframe : forall e, preset_frame_event e -> P e.
Hypothesis Hquestion :
  forall chain retr acc x w,
    In x (iterrows EmptyString create_evaluation_dataset) ->
    Forall P (trace_of (evaluate_question ext mets (mkRunConfig 1) chain retr
                                          4 acc x) w).

Lemma print_average_frame u item (w : World) :
  Forall P (trace_of (@print_average World u item) w).
Proof.
  destruct item as [m [[v |] | s]]; unfold print_average, trace_of;
    destruct (String.eqb m "combination_name"); cbn;
    repeat constructor; apply Hframe; exact I.
Qed.

Lemma configuration_invariant acc i cfg w :
  In cfg get_manual_hyperparameter_configs ->
  Forall P (trace_of (evaluate_configuration settings ext docs mets
                        (mkRunConfig 1) create_evaluation_dataset 4
                        acc (i, cfg)) w).
Proof.
  intros Hin. unfold trace_of. rewrite evaluate_configuration_eq.
  assert (Hhead : Forall P (preset_header 4 i cfg)).
  { repeat constructor; apply Hframe; exact I. }
  assert (Hfoot : Forall P (preset_footer 4 i)).
  { unfold preset_footer. destruct (i <? 4 - 1)%nat;
      repeat constructor; apply Hframe; cbn; auto. }
  pose proof (create_rag_chain_inv settings ext docs cfg w) as Hc.
  destruct (create_rag_chain _ _ _ _ _ _ w) as [[[[chain retr] | e] tc] w1].
  - destruct Hc as (splits & _ & _ & _ & Hce).
    assert (Htc : Forall P tc).
    { eapply Forall_impl; [| exact Hce]. intros e. now apply Hcon. }
    pose proof (@for_each_Forall _ _ P
                  (evaluate_question ext mets (mkRunConfig 1) chain retr 4)
                  (iterrows EmptyString create_evaluation_dataset)
                  (fun s x w0 Hx => @Hquestion chain retr s x w0 Hx) [] w1) as Hq.
    unfold trace_of in Hq.
    destruct (for_each _ (iterrows EmptyString create_evaluation_dataset) [] w1)
      as [[[scores | e] tq] w2]; cbn [fst snd] in *.
    + pose proof (@for_each_Forall _ _ P (@print_average World)
                    (average_scores scores (name cfg))
                    (fun s x w0 _ => print_average_frame s x w0) tt w2) as Hp.
      unfold trace_of in Hp. cbv zeta.
      destruct (for_each _ (average_scores scores (name cfg)) tt w2)
        as [[[[] | e] tp] w3]; cbn [fst snd] in *;
        repeat (apply Forall_app; split; try assumption);
        (constructor; [apply Hframe; exact I |]); try assumption.
      now apply Forall_app.
    + repeat (apply Forall_app; split; try assumption).
  - destruct Hc as [Hce _]. cbn [fst snd]. apply Forall_app. split; [assumption |].
    eapply Forall_impl; [| exact Hce]. intros e'. now apply Hcon.
Qed.

(** What holds of every event of the parts holds of every event of the
    run. *)
Lemma run_invariant w :
  Forall P (trace_of (run_evaluation settings ext docs) w).
Proof.
  unfold trace_of. rewrite run_evaluation_eq.
  pose proof (configure_inv settings ext w) as Hc.
  pose proof (configure_values w) as Hv.
  destruct (configure_ragas_dependencies settings ext w)
    as [[[[[llm |] [emb |]] | e] td] w1]; try contradiction;
    destruct Hc as [Hd _]; cbn [fst snd];
    try (eapply Forall_impl; [| exact Hd]; exact Hdep).
  destruct Hv as [-> ->].
  pose proof (@for_each_Forall _ _ P
                (evaluate_configuration settings ext docs mets (mkRunConfig 1)
                                        create_evaluation_dataset 4)
                (enumerate get_manual_hyperparameter_configs)
                (fun s x w0 Hx =>
                   match x as x0
                         return In x0 _ -> Forall P (trace_of (_ s x0) w0) with
                   | (i, cfg) => fun Hx' =>
                       @configuration_invariant s i cfg w0
                         (enumerate_presets Hx')
                   end Hx) [] w1) as Hl.
  unfold trace_of in Hl.
  destruct (for_each _ (enumerate get_manual_hyperparameter_configs) [] w1)
    as [[[all_results | e] tl] w2]; cbn [fst snd] in *.
  - destruct (final_results all_results); cbn [fst snd];
      (apply Forall_app; split; [| assumption]);
      (eapply Forall_impl; [| exact Hd]; exact Hdep).
  - apply Forall_app. split; [| assumption].
    eapply Forall_impl; [| exact Hd]; exact Hdep.
Qed.

End RunInvariant.


Section ScoringCalls.

Variable World : Type.
Variable ext : Externals World.
Variables (mets : list Metric) (rc : RunConfig).
Variables (chain : RagChain) (retr : Retriever).
Variables (row : Dict.t string) (q gt : string).
Hypothesis Hq : Dict.get "question" row = Some q.
Hypothesis Hgt : Dict.get "ground_truth" row = Some gt.

Lemma score_question_calls w :
  Forall (fun e =>
            match e with
            | Evaluate ds ms raise_exceptions rc' =>
                ms = mets /\ raise_exceptions = true /\ rc' = rc /\
                ds_question ds = [q] /\ ds_ground_truth ds = [gt] /\
                List.length (ds_answer ds) = 1%nat /\
                List.length (ds_contexts ds) = 1%nat
            | Recorded _ | Sleep _ => False
            | _ => True
            end)
         (trace_of (score_question ext mets rc chain retr row) w).
Proof.
  unfold score_question, rag_chain_invoke, getitem, read_scores, bind, call,
    ret, raise, print, trace_of.
  rewrite Hq, Hgt. cbn.
  oracle_cases ext; repeat constructor.
Qed.

End ScoringCalls.

(** X9.  Every call of the scoring library in a run is made the same way:
    with the four metrics in their order, each carrying the scoring model
    of temperature 0, with exceptions turned on and one worker, on a
    dataset of exactly one benchmark question, paired with its own
    expected answer, one answer and one list of contexts. *)
Theorem scoring_calls_are_well_formed
    (World : Type) (settings : Settings) (ext : Externals World)
    (original_docs : list Document) (w : World) :
  Forall (scoring_call_well_formed ext settings)
         (trace_of (run_evaluation settings ext original_docs) w) /\
  map metric_name
      (map (configure_metric ext (mkLLMWrapper (evaluation_llm settings))
                             (mkEmbWrapper (shared_embeddings settings)))
           metrics)
  = metric_names /\
  Forall (fun m => metric_llm m = Some (mkLLMWrapper (evaluation_llm settings)))
         (map (configure_metric ext (mkLLMWrapper (evaluation_llm settings))
                                (mkEmbWrapper (shared_embeddings settings)))
              metrics).
Proof.
  split; [| split; [reflexivity | repeat constructor]].
  apply run_invariant.
  - intros [[] | | | | | | | | | | | | | ]; cbn; tauto.
  - intros cfg []; cbn; tauto.
  - intros [[] | | | | | | | | | | | | | ]; cbn; tauto.
  - intros chain retr acc [idx row] w0 Hin. unfold trace_of.
    rewrite evaluate_question_eq.
    assert (Hrow : exists i, (i < 4)%nat /\
                     Dict.get "question" row = Some (nth i questions EmptyString) /\
                     Dict.get "ground_truth" row
                     = Some (nth i ground_truths EmptyString)).
    { cbn in Hin.
      destruct Hin as [H | [H | [H | [H | []]]]]; injection H as <- <-;
        [exists 0%nat | exists 1%nat | exists 2%nat | exists 3%nat];
        repeat split; lia. }
    destruct Hrow as (i & Hi & Hq & Hgt).
    set (mets := map (configure_metric ext
                        (mkLLMWrapper (evaluation_llm settings))
                        (mkEmbWrapper (shared_embeddings settings))) metrics).
    pose proof (@score_question_calls _ ext mets (mkRunConfig 1) chain retr row
                  _ _ Hq Hgt w0) as H.
    unfold trace_of in H.
    destruct (score_question ext mets (mkRunConfig 1) chain retr row w0)
      as [[r t] w1].
    cbn [fst snd] in *. constructor; [exact I |].
    apply Forall_app. split.
    + eapply Forall_impl; [| exact H].
      intros [] He; cbn in *; try tauto.
      destruct He as (-> & -> & -> & Hdq & Hdg & Ha & Hc).
      repeat split; auto. exists i. auto.
    + destruct r; repeat constructor.
Qed.

(** *** How a run can end *)

Section Endings.

Variable World : Type.
Variable settings : Settings.
Variable ext : Externals World.





End Endings.



(** X11.  [run_evaluation] returns [None] only when configuring the
    dependencies raised; any other run that returns returns a table. *)
Theorem none_only_after_dependency_failure
    (World : Type) (settings : Settings) (ext : Externals World)
    (original_docs : list Document) (w : World) :
  outcome_of (run_evaluation settings ext original_docs) w = Ok None ->
  dependencies_raise settings ext w.
Proof.
  pose proof (run_evaluation_inv settings ext original_docs w) as H.
  unfold outcome_of.
  destruct (run_evaluation settings ext original_docs w) as [[[[df |] | e] tr] w'];
    cbn [fst]; try discriminate.
  intros _. now destruct H.
Qed.

Lemma none_only_after_dependency_failure_witness :
  dependencies_raise Demo.settings Demo.ext_no_llm 0%nat.
Proof.
  apply (@none_only_after_dependency_failure
           Demo.World Demo.settings Demo.ext_no_llm Demo.docs 0%nat).
  reflexivity.
Defined.

(** *** Time and calls *)



Lemma count_questions_app (a b : list pace) :
  count_questions (a ++ b) = (count_questions a + count_questions b)%nat.
Proof. unfold count_questions. now rewrite filter_app, length_app. Qed.

Lemma count_chain_pacing (tr : trace) :
  count_chain_invocations tr = count_questions (pacing tr).
Proof.
  induction tr as [| e tr IH]; [reflexivity |].
  unfold pacing in *. cbn [flat_map]. rewrite count_questions_app, <- IH.
  destruct e as [[] | | | | | | | | | | | | | ]; reflexivity.
Qed.

Lemma expected_pacing_totals (n : nat) :
  (n <= 4)%nat ->
  total_pause (expected_pacing n)
  = (if (n <? 4)%nat then 1020 * Z.of_nat n else 3780)%Z /\
  count_questions (expected_pacing n) = (4 * n)%nat.
Proof.
  intros H. destruct n as [| [| [| [| [| n]]]]]; try lia; split; reflexivity.
Qed.


Lemma runs_records_count
    {World} (settings : Settings) (ext : Externals World)
    (xs : list (nat * config)) (rts : list (Dict.t cell * list event)) :
  Forall2 (fun x rt =>
             preset_run settings ext (mkRunConfig 1) 4 x (fst rt) (snd rt))
          xs rts ->
  List.length (recorded (List.concat (map snd rts))) = (4 * List.length xs)%nat.
Proof.
  induction 1 as [| x [r t] xs rts Hx _ IH]; [reflexivity |].
  destruct Hx as (raws & _ & Hl & _ & Hr & _). cbn [snd] in Hr.
  cbn [map snd List.concat List.length]. unfold recorded in *.
  rewrite flat_map_app, length_app, IH, Hr, length_map, Hl. lia.
Qed.

(** X13.  However a run ends, every invocation of the chain leaves exactly
    one record: a run that returns its table has invoked the chain 16
    times and appended 16 records, and a run that gives up after [n]
    completed presets has done both [4 n] times. *)
Theorem one_record_per_invocation
    (World : Type) (settings : Settings) (ext : Externals World)
    (original_docs : list Document) (w : World) :
  let tr := trace_of (run_evaluation settings ext original_docs) w in
  count_chain_invocations tr = List.length (recorded tr) /\
  match outcome_of (run_evaluation settings ext original_docs) w with
  | Ok (Some _) => List.length (recorded tr) = 16%nat
  | Ok None => List.length (recorded tr) = 0%nat
  | Raise _ => exists n, (n < 4)%nat /\ List.length (recorded tr) = (4 * n)%nat
  end.
Proof.
  intros tr. pose proof (run_pacing settings ext original_docs w) as Hp.
  pose proof (run_evaluation_inv settings ext original_docs w) as H.
  fold tr in Hp. rewrite count_chain_pacing.
  unfold tr, trace_of, outcome_of in *.
  destruct (run_evaluation settings ext original_docs w)
    as [[[[df |] | e] tr0] w']; cbn [fst snd] in *.
  - destruct H as (_ & td & rts & Hd & -> & HF & _).
    assert (Hr : List.length (recorded (td ++ List.concat (map snd rts)))
                 = 16%nat).
    { unfold recorded. rewrite flat_map_app, length_app.
      fold (recorded td). destruct (dependency_events_silent Hd) as (_ & _ & ->).
      exact (runs_records_count HF). }
    rewrite Hr, Hp. split; reflexivity.
  - destruct H as [_ Hd]. rewrite Hp.
    destruct (dependency_events_silent Hd) as (_ & _ & ->). split; reflexivity.
  - destruct H as (_ & td & pre & x & post & rts & t2 & Hd & Hxs & HF & -> & Ha).
    destruct (aborted_prefix _ _ _ Hxs) as [Hlt _].
    assert (Hr : List.length (recorded (td ++ List.concat (map snd rts) ++ t2))
                 = (4 * List.length pre)%nat).
    { unfold recorded. rewrite !flat_map_app, !length_app.
      fold (recorded td). fold (recorded t2).
      destruct (dependency_events_silent Hd) as (_ & _ & ->).
      destruct Ha as (_ & -> & _). cbn [List.length].
      rewrite Nat.add_0_r. exact (runs_records_count HF). }
    destruct Hp as (n & Hn & Hp).
    assert (Hc : count_questions
                   (pacing (td ++ List.concat (map snd rts) ++ t2))
                 = (4 * List.length pre)%nat).
    { rewrite !pacing_app.
      destruct (dependency_events_silent Hd) as (-> & _).
      destruct Ha as (-> & _). cbn [app].
      rewrite count_questions_app.
      assert (Hq : pacing (List.concat (map snd rts))
                   = flat_map (preset_pacing 4) pre).
      { revert HF. apply runs_flat_map.
        intros y r t (raws & splits & _ & _ & _ & Hy & _). exact Hy. }
      rewrite Hq. clear - Hxs.
      destruct (aborted_prefix _ _ _ Hxs) as [Hlt He].
      pose proof (expected_pacing_totals (n := List.length pre)) as [_ Ht];
        [lia |].
      rewrite He, count_questions_app in Ht. exact Ht. }
    rewrite Hc, Hr. split; [reflexivity |].
    exists (List.length pre). split; [assumption | reflexivity].
Qed.

(** *** The prompt *)

Lemma append_assoc (a b c : string) :
  String.append (String.append a b) c = String.append a (String.append b c).
Proof. induction a as [| x a IH]; cbn; [reflexivity | now rewrite IH]. Qed.

Lemma append_empty_r (a : string) : String.append a EmptyString = a.
Proof. induction a as [| x a IH]; cbn; [reflexivity | now rewrite IH]. Qed.

Lemma contains_here (s : string) : contains s s.
Proof. exists EmptyString, EmptyString. cbn. now rewrite append_empty_r. Qed.

Lemma contains_after (pre s sub : string) :
  contains s sub -> contains (String.append pre s) sub.
Proof.
  intros (a & b & ->). exists (String.append pre a), b. now rewrite append_assoc.
Qed.

Lemma contains_before (s post sub : string) :
  contains s sub -> contains (String.append s post) sub.
Proof.
  intros (a & b & ->). exists a, (String.append b post).
  now rewrite !append_assoc.
Qed.

Lemma concat_contains (sep : string) (l : list string) (s : string) :
  In s l -> contains (String.concat sep l) s.
Proof.
  induction l as [| x l IH]; [contradiction |].
  intros [<- | Hin].
  - destruct l; cbn; [apply contains_here |].
    apply contains_before, contains_here.
  - destruct l as [| y l]; [contradiction |].
    change (String.concat sep (x :: y :: l))
      with (String.append x (String.append sep (String.concat sep (y :: l)))).
    apply contains_after, contains_after, IH, Hin.
Qed.

Lemma prompt_template_contains (context question : string) :
  contains (prompt_template context question) context /\
  contains (prompt_template context question) question.
Proof.
  unfold prompt_template. split; apply concat_contains; cbn; tauto.
Qed.

(** X14.  When the retrieval inside the chain returns documents, the
    chain asks the model once, and the prompt it sends carries the
    question and the text of every retrieved document word for word. *)
Theorem prompt_carries_question_and_contexts
    (World : Type) (ext : Externals World) (rag_chain : RagChain)
    (question : string) (w w1 : World) (docs : list Document) :
  chain_prompt rag_chain = prompt_template ->
  retriever_invoke ext (chain_retriever rag_chain) question w = (Ok docs, w1) ->
  exists prompt,
    trace_of (rag_chain_invoke ext rag_chain question) w
    = [ChainInvoke rag_chain question;
       RetrieverInvoke (chain_retriever rag_chain) question;
       LLMInvoke (chain_llm rag_chain) prompt] /\
    contains prompt question /\
    Forall (fun d => contains prompt (page_content d)) docs.
Proof.
  intros Hp Hr. exists (prompt_template (format_docs docs) question).
  split; [| split].
  - unfold trace_of, rag_chain_invoke, bind, call. rewrite Hr, Hp.
    destruct (llm_invoke ext _ _ w1) as [r w2]. reflexivity.
  - apply prompt_template_contains.
  - apply Forall_forall. intros d Hd.
    destruct (prompt_template_contains (format_docs docs) question)
      as [(a & b & ->) _].
    apply contains_after, contains_before.
    unfold format_docs. apply concat_contains. now apply in_map.
Qed.

Lemma prompt_carries_question_and_contexts_witness :
  exists prompt,
    trace_of (rag_chain_invoke Demo.ext
                (preset_chain Demo.settings Demo.docs 4 (3 # 10)) "q") 0%nat
    = [ChainInvoke (preset_chain Demo.settings Demo.docs 4 (3 # 10)) "q";
       RetrieverInvoke
         (chain_retriever (preset_chain Demo.settings Demo.docs 4 (3 # 10))) "q";
       LLMInvoke (chain_llm (preset_chain Demo.settings Demo.docs 4 (3 # 10)))
                 prompt] /\
    contains prompt "q" /\
    Forall (fun d => contains prompt (page_content d)) Demo.docs.
Proof.
  apply (@prompt_carries_question_and_contexts
           Demo.World Demo.ext (preset_chain Demo.settings Demo.docs 4 (3 # 10))
           "q" 0%nat 0%nat Demo.docs); reflexivity.
Defined.

(** *** What a run does with its inputs and with failed scoring *)

Section Benchmark.

Variable World : Type.
Variable ext : Externals World.
Variables (mets : list Metric) (rc : RunConfig).
Variables (chain : RagChain) (retr : Retriever).

Lemma benchmark_question_events n acc x w :
  In x (iterrows EmptyString create_evaluation_dataset) ->
  Forall (question_event mets rc chain retr)
         (trace_of (evaluate_question ext mets rc chain retr n acc x) w).
Proof.
  intros Hin.
  assert (Hk : has_both_keys x).
  { pose proof benchmark_rows_have_keys as H. rewrite Forall_forall in H. auto. }
  destruct (has_both_keys_get Hk) as [Hq Hgt]. destruct x as [idx row].
  cbn [snd] in *. unfold trace_of. rewrite evaluate_question_eq.
  pose proof (score_question_events ext mets rc chain retr row Hq Hgt w) as H.
  unfold trace_of in H.
  destruct (score_question ext mets rc chain retr row w) as [[r t] w1].
  cbn [fst snd] in *. constructor; [exact I |].
  apply Forall_app. split; [assumption |].
  destruct r; repeat constructor.
Qed.

Hypothesis Hfail : scoring_always_raises ext.

Lemma unscored_question_outcome row w :
  match outcome_of (score_question ext mets rc chain retr row) w with
  | Ok d => d = nan_scores
  | Raise _ => True
  end.
Proof.
  unfold score_question, rag_chain_invoke, getitem, read_scores, bind, call,
    ret, raise, print, outcome_of.
  destruct (Dict.get "question" row); cbn; [| exact I].
  repeat match goal with
    | |- context [retriever_invoke ext ?r ?q ?w0] =>
        destruct (retriever_invoke ext r q w0) as [[? | ?] ?]; cbn
    | |- context [llm_invoke ext ?m ?p ?w0] =>
        destruct (llm_invoke ext m p w0) as [[? | ?] ?]; cbn
    end; try exact I.
  all: destruct (Dict.get "ground_truth" row); cbn; try exact I.
  all: repeat match goal with
         | |- context [ragas_evaluate ext ?d ?m ?b ?r ?w0] =>
             destruct (Hfail d m b r w0) as (? & ? & ->); cbn
         end; exact I.
Qed.

Lemma unscored_question_record n acc x w :
  In x (iterrows EmptyString create_evaluation_dataset) ->
  Forall record_is_missing
         (trace_of (evaluate_question ext mets rc chain retr n acc x) w).
Proof.
  intros Hin.
  assert (Hk : has_both_keys x).
  { pose proof benchmark_rows_have_keys as H. rewrite Forall_forall in H. auto. }
  destruct (has_both_keys_get Hk) as [Hq Hgt]. destruct x as [idx row].
  cbn [snd] in *. unfold trace_of. rewrite evaluate_question_eq.
  pose proof (@score_question_calls _ ext mets rc chain retr row _ _ Hq Hgt w)
    as H.
  pose proof (unscored_question_outcome row w) as Ho.
  unfold trace_of, outcome_of in *.
  destruct (score_question ext mets rc chain retr row w) as [[r t] w1].
  cbn [fst snd] in *. constructor; [exact I |].
  apply Forall_app. split.
  - eapply Forall_impl; [| exact H]. intros []; cbn; tauto.
  - destruct r as [d | e]; repeat constructor; cbn; subst;
      apply nan_scores_record.
Qed.

End Benchmark.

Lemma recorded_Forall (Q : Dict.t score -> Prop) (tr : trace) :
  Forall (fun e => match e with Recorded r => Q r | _ => True end) tr ->
  Forall Q (recorded tr).
Proof.
  induction 1 as [| e tr He _ IH]; [constructor |].
  destruct e; cbn; auto.
Qed.

(** X15.  Every preset has the splitter work on the documents
    [run_evaluation] was given, never on the output of an earlier preset. *)
Theorem presets_split_the_original_documents
    (World : Type) (settings : Settings) (ext : Externals World)
    (original_docs : list Document) (w : World) :
  Forall (splits_documents original_docs)
         (trace_of (run_evaluation settings ext original_docs) w).
Proof.
  apply run_invariant.
  - intros [[] | | | | | | | | | | | | | ]; cbn; tauto.
  - intros cfg []; cbn; tauto.
  - intros [[] | | | | | | | | | | | | | ]; cbn; tauto.
  - intros chain retr acc x w0 Hin.
    eapply Forall_impl; [| eapply benchmark_question_events; exact Hin].
    intros []; cbn; tauto.
Qed.

(** X16.  When every call of the scoring library raises while the
    dependencies and the chains can be built, the run still returns its
    table of four rows, and every metric of every row is the missing
    value. *)
Theorem failed_scoring_gives_missing_table
    (World : Type) (settings : Settings) (ext : Externals World)
    (original_docs : list Document) (w : World) :
  dependencies_succeed settings ext w ->
  chain_construction_succeeds ext ->
  scoring_always_raises ext ->
  exists df tr w',
    run_evaluation settings ext original_docs w = (Ok (Some df), tr, w') /\
    nrows df = 4%nat /\
    forall i m, (i < 4)%nat -> In m metric_names ->
                cell_at df i m = Some (Num NaN).
Proof.
  intros Hd Hc Hf.
  destruct (run_succeeds original_docs Hd Hc) as (df & tr & w' & E).
  exists df, tr, w'. split; [exact E |].
  destruct (run_table_inv settings ext original_docs w E)
    as (td & t1 & t2 & t3 & t4 & raws1 & raws2 & raws3 & raws4
        & _ & _ & _ & _ & _ & _ & _ & Hrec & ->).
  split; [reflexivity |].
  assert (Hall : Forall (fun r => r = nan_record) (recorded tr)).
  { apply recorded_Forall.
    replace tr with (trace_of (run_evaluation settings ext original_docs) w)
      by (unfold trace_of; now rewrite E).
    apply run_invariant.
    - intros [[] | | | | | | | | | | | | | ]; cbn; tauto.
    - intros cfg []; cbn; tauto.
    - intros [[] | | | | | | | | | | | | | ]; cbn; tauto.
    - intros chain retr acc x w0 Hin.
      now apply unscored_question_record. }
  rewrite Hrec in Hall. rewrite !Forall_app in Hall.
  destruct Hall as (A1 & A2 & A3 & A4).
  assert (Hnan : forall raws m,
             Forall (fun r => r = nan_record) (map final_scores_of raws) ->
             In m metric_names ->
             nanmean (map (Dict.get_default m NaN) (map final_scores_of raws))
             = NaN).
  { intros raws m Hr Hm. apply nanmean_all_missing. intros x Hx.
    apply in_map_iff in Hx. destruct Hx as (r & <- & Hin).
    rewrite Forall_forall in Hr. rewrite (Hr r Hin).
    cbn in Hm. repeat (destruct Hm as [<- | Hm]; [reflexivity |]). destruct Hm. }
  intros i m Hi Hm.
  pose proof (Hnan raws1 m A1 Hm) as N1. pose proof (Hnan raws2 m A2 Hm) as N2.
  pose proof (Hnan raws3 m A3 Hm) as N3. pose proof (Hnan raws4 m A4 Hm) as N4.
  cbn in Hm.
  destruct i as [| [| [| [| i]]]]; try lia;
    repeat (destruct Hm as [<- | Hm];
            [unfold cell_at, table_of; cbn; congruence |]);
    destruct Hm.
Qed.

Lemma failed_scoring_gives_missing_table_witness :
  exists df tr w',
    run_evaluation Demo.settings ext_scoring_fails Demo.docs 0%nat
    = (Ok (Some df), tr, w') /\
    nrows df = 4%nat /\
    forall i m, (i < 4)%nat -> In m metric_names ->
                cell_at df i m = Some (Num NaN).
Proof.
  apply (@failed_scoring_gives_missing_table
           Demo.World Demo.settings ext_scoring_fails Demo.docs 0%nat).
  - eexists _, _. reflexivity.
  - repeat split; intros; intros w; eexists _, _; reflexivity.
  - intros ds ms b rc w. eexists _, _. reflexivity.
Defined.
